(** * Pustaka Nusantara: metadata enrichment scripts

    A shallow embedding of [scripts/api_enrichment.py] (Open Library
    enrichment) and [scripts/get_google_data.py] (Google Books enrichment
    with a title-keyed cache), and the properties of the enrichment engine
    proved or refuted on it.

    Conventions of the embedding:
    - Python values (JSON documents, data-frame cells) are the inductive
      type [value]; [VNone] is Python's [None] (JSON null) and [VNaN] the
      float NaN that pandas uses for a missing cell.  Numbers are integers.
    - Text is [string], read as a sequence of ASCII characters.
    - Code that can raise returns a [result]; code with effects (HTTP
      requests, sleeps, log lines, files) runs in a monad that threads the
      trace of effects performed so far.
    - The network is an oracle: the outcome of the [n]-th request of a run.
    - Durations are in milliseconds. *)

From Stdlib Require Import ZArith Lia Ascii String.
From stdpp Require Import gmap strings list pretty.

Set Warnings "-register-all,-clear-no-such-hyp".

Open Scope string_scope.
Open Scope list_scope.
Open Scope Z_scope.

(** ** Python values and the builtins the scripts use *)

Module Py.

Inductive value : Type :=
| VNone
| VNaN
| VBool (b : bool)
| VInt (z : Z)
| VStr (s : string)
| VList (l : list value)
| VDict (d : list (string * value)).

Inductive exn : Type :=
| TypeError | KeyError | IndexError | AttributeError | JSONDecodeError
| ValueError | MergeError.

Inductive result (A : Type) : Type :=
| Ok (a : A)
| Raise (e : exn).
Arguments Ok {A} a.
Arguments Raise {A} e.

Definition rbind {A B} (r : result A) (k : A -> result B) : result B :=
  match r with
  | Ok a => k a
  | Raise e => Raise e
  end.

Notation "'let*' x ':=' e 'in' k" := (rbind e (fun x => k))
  (at level 10, x name, e at level 100, k at level 200).

(** A Python [dict] with string keys, in insertion order. *)
Definition dict := list (string * value).

Fixpoint dict_get (d : dict) (k : string) : option value :=
  match d with
  | [] => None
  | (k', v) :: d' => if String.eqb k' k then Some v else dict_get d' k
  end.

(** [d[k] = v]: overwrite in place, or append a new key. *)
Fixpoint dict_set (d : dict) (k : string) (v : value) : dict :=
  match d with
  | [] => [(k, v)]
  | (k', v') :: d' =>
      if String.eqb k' k then (k', v) :: d' else (k', v') :: dict_set d' k v
  end.

Definition keys (d : dict) : list string := map fst d.

(** Truth value of an object ([if x:], [x and y]). *)
Definition truthy (v : value) : bool :=
  match v with
  | VNone => false
  | VNaN => true
  | VBool b => b
  | VInt z => negb (Z.eqb z 0)
  | VStr s => negb (String.eqb s "")
  | VList l => match l with [] => false | _ => true end
  | VDict d => match d with [] => false | _ => true end
  end.

(** [pd.isna]: both [None] and NaN count as missing. *)
Definition is_null (v : value) : bool :=
  match v with
  | VNone | VNaN => true
  | _ => false
  end.

(** *** Strings *)

(** A Python [str] is held as its UTF-8 encoding, one [ascii] per byte. *)

Definition byte_is (c : ascii) (n : nat) : bool := Nat.eqb (nat_of_ascii c) n.

(** [str.isspace] on the ASCII range: TAB..CR, FS..US and the blank. *)
Definition is_space (c : ascii) : bool :=
  let n := nat_of_ascii c in
  (Nat.leb 9 n && Nat.leb n 13) || (Nat.leb 28 n && Nat.leb n 32).

(** The white space of two bytes: U+0085 and U+00A0. *)
Definition is_space2 (c1 c2 : ascii) : bool :=
  byte_is c1 194 && (byte_is c2 133 || byte_is c2 160).

(** The white space of three bytes: U+1680, U+2000..U+200A, U+2028,
    U+2029, U+202F, U+205F and U+3000. *)
Definition is_space3 (c1 c2 c3 : ascii) : bool :=
  let n3 := nat_of_ascii c3 in
  (byte_is c1 225 && byte_is c2 154 && byte_is c3 128)
  || (byte_is c1 226 && byte_is c2 128
      && ((Nat.leb 128 n3 && Nat.leb n3 138)
          || Nat.eqb n3 168 || Nat.eqb n3 169 || Nat.eqb n3 175))
  || (byte_is c1 226 && byte_is c2 129 && byte_is c3 159)
  || (byte_is c1 227 && byte_is c2 128 && byte_is c3 128).

(** The number of bytes of the white-space character that [s] starts with;
    [0] when it starts with none. *)
Definition space_width (s : string) : nat :=
  match s with
  | String c1 s1 =>
      if is_space c1 then 1%nat
      else
        match s1 with
        | String c2 s2 =>
            if is_space2 c1 c2 then 2%nat
            else
              match s2 with
              | String c3 _ => if is_space3 c1 c2 c3 then 3%nat else 0%nat
              | EmptyString => 0%nat
              end
        | EmptyString => 0%nat
        end
  | EmptyString => 0%nat
  end.

(** [str.lstrip()]; [skip] counts the bytes still to drop of the white-space
    character being removed. *)
Fixpoint lstrip_from (skip : nat) (s : string) : string :=
  match s with
  | String _ s' =>
      match skip with
      | S k => lstrip_from k s'
      | O =>
          match space_width s with
          | S w => lstrip_from w s'
          | O => s
          end
      end
  | EmptyString => EmptyString
  end.

Definition lstrip (s : string) : string := lstrip_from 0 s.

(** [str.rstrip()]: the text is cut where only white space follows. *)
Fixpoint rstrip (s : string) : string :=
  match s with
  | String c s' =>
      match lstrip s with
      | EmptyString => EmptyString
      | _ => String c (rstrip s')
      end
  | EmptyString => EmptyString
  end.

(** [str.strip()] *)
Definition strip (s : string) : string := rstrip (lstrip s).

Definition lower_char (c : ascii) : ascii :=
  let n := nat_of_ascii c in
  if Nat.leb 65 n && Nat.leb n 90 then ascii_of_nat (n + 32)%nat else c.

(** [str.lower()], as far as a comparison with an ASCII word can tell: the
    ASCII capitals and the Kelvin sign U+212A are the characters whose lower
    case is an ASCII text; any other character leaves text outside ASCII. *)
Fixpoint lower (s : string) : string :=
  match s with
  | String c1 s1 =>
      match s1 with
      | String c2 (String c3 s3) =>
          if byte_is c1 226 && byte_is c2 132 && byte_is c3 170
          then String "k"%char (lower s3)
          else String (lower_char c1) (lower s1)
      | _ => String (lower_char c1) (lower s1)
      end
  | EmptyString => EmptyString
  end.

(** [s.replace(c, '')] for a single ASCII character [c]. *)
Fixpoint remove_char (c : ascii) (s : string) : string :=
  match s with
  | String c' s' =>
      if Ascii.eqb c' c then remove_char c s' else String c' (remove_char c s')
  | EmptyString => EmptyString
  end.

(** A byte that continues a character. *)
Definition is_continuation (c : ascii) : bool :=
  let n := nat_of_ascii c in Nat.leb 128 n && Nat.ltb n 192.

Definition continues (s : string) : bool :=
  match s with
  | String c _ => is_continuation c
  | EmptyString => false
  end.

(** The characters of a text, each with all its bytes. *)
Fixpoint chars (s : string) : list string :=
  match s with
  | String c s' =>
      match chars s' with
      | h :: t =>
          if continues s' then String c h :: t
          else String c EmptyString :: h :: t
      | [] => [String c EmptyString]
      end
  | EmptyString => []
  end.

(** [s[:n]] *)
Definition str_take (n : nat) (s : string) : string :=
  foldr String.append EmptyString (take n (chars s)).

Fixpoint join (sep : string) (l : list string) : string :=
  match l with
  | [] => ""
  | [s] => s
  | s :: l' => s +:+ sep +:+ join sep l'
  end.

(** [needle in s] for strings: substring test. *)
Fixpoint is_substring (needle s : string) : bool :=
  String.prefix needle s ||
  match s with
  | String _ s' => is_substring needle s'
  | EmptyString => false
  end.

(** *** Dynamic operations, raising where Python raises *)

Section Builtins.

(** Python's [repr] of a list or a dict, which [str] and f-strings fall back
    on; none of the properties below depends on its text. *)
Variable repr : value -> string.

(** [str(v)], also the rendering of [{v}] in an f-string. *)
Definition py_str (v : value) : string :=
  match v with
  | VNone => "None"
  | VNaN => "nan"
  | VBool true => "True"
  | VBool false => "False"
  | VInt z => pretty z
  | VStr s => s
  | VList _ | VDict _ => repr v
  end.

(** [obj.get(k, dflt)]: only a dict has [get]. *)
Definition py_get (obj : value) (k : string) (dflt : value) : result value :=
  match obj with
  | VDict d => Ok (default dflt (dict_get d k))
  | _ => Raise AttributeError
  end.

(** [obj[k]] for a string key. *)
Definition py_item (obj : value) (k : string) : result value :=
  match obj with
  | VDict d => match dict_get d k with Some v => Ok v | None => Raise KeyError end
  | _ => Raise TypeError
  end.

(** [obj[0]] *)
Definition py_index0 (obj : value) : result value :=
  match obj with
  | VList (x :: _) => Ok x
  | VList [] => Raise IndexError
  | VStr s =>
      match chars s with
      | c :: _ => Ok (VStr c)
      | [] => Raise IndexError
      end
  | VDict _ => Raise KeyError
  | _ => Raise TypeError
  end.

(** [obj[:n]] *)
Definition py_slice (n : nat) (obj : value) : result value :=
  match obj with
  | VList l => Ok (VList (take n l))
  | VStr s => Ok (VStr (str_take n s))
  | _ => Raise TypeError
  end.

(** [len(obj)] *)
Definition py_len (obj : value) : result nat :=
  match obj with
  | VList l => Ok (length l)
  | VStr s => Ok (length (chars s))
  | VDict d => Ok (length d)
  | _ => Raise TypeError
  end.

Fixpoint all_strings (l : list value) : option (list string) :=
  match l with
  | [] => Some []
  | VStr s :: l' => option_map (cons s) (all_strings l')
  | _ => None
  end.

(** [sep.join(obj)]: any iterable whose items are all strings. *)
Definition py_join (sep : string) (obj : value) : result value :=
  match obj with
  | VList l =>
      match all_strings l with
      | Some ss => Ok (VStr (join sep ss))
      | None => Raise TypeError
      end
  | VStr s => Ok (VStr (join sep (chars s)))
  | VDict d => Ok (VStr (join sep (keys d)))
  | _ => Raise TypeError
  end.

(** [k in obj] for a string [k]. *)
Definition py_contains (k : string) (obj : value) : result bool :=
  match obj with
  | VDict d => Ok (bool_decide (k ∈ keys d))
  | VList l => Ok (existsb (fun v => match v with VStr s => String.eqb s k | _ => false end) l)
  | VStr s => Ok (is_substring k s)
  | _ => Raise TypeError
  end.

End Builtins.

End Py.

(** ** The fragment of pandas the scripts use *)

Module Pandas.
Import Py.

(** A frame is a list of column labels and rows of cells in column order. *)
Record DataFrame : Type := mkDF {
  columns : list string;
  rows : list (list value)
}.

Definition col_index (df : DataFrame) (c : string) : option nat :=
  fst <$> list_find (fun x => x = c) (columns df).

(** [df[c]]: the cells of column [c], or [KeyError]. *)
Definition column (df : DataFrame) (c : string) : result (list value) :=
  match col_index df c with
  | Some i => Ok (map (fun r => default VNaN (r !! i)) (rows df))
  | None => Raise KeyError
  end.

(** [Series.dropna] *)
Definition dropna (l : list value) : list value :=
  filter (fun v => is_null v = false) l.

(** What pandas hashes a cell to when it factorises keys: missing values
    are one key, [True] and [1] are the same key, containers cannot be
    hashed. *)
Inductive key : Type :=
| KNull
| KNum (z : Z)
| KStr (s : string).

Global Instance key_eq_dec : EqDecision key.
Proof. solve_decision. Defined.

Definition key_of (v : value) : option key :=
  match v with
  | VNone | VNaN => Some KNull
  | VBool b => Some (KNum (Z.b2z b))
  | VInt z => Some (KNum z)
  | VStr s => Some (KStr s)
  | VList _ | VDict _ => None
  end.

Fixpoint keys_of (l : list value) : result (list key) :=
  match l with
  | [] => Ok []
  | v :: l' =>
      match key_of v with
      | Some k => let* ks := keys_of l' in Ok (k :: ks)
      | None => Raise TypeError
      end
  end.

(** [Series.unique]: first occurrences, in order of appearance. *)
Fixpoint unique_go (seen : list key) (l : list value) : result (list value) :=
  match l with
  | [] => Ok []
  | v :: l' =>
      match key_of v with
      | None => Raise TypeError
      | Some k =>
          if bool_decide (k ∈ seen) then unique_go seen l'
          else let* r := unique_go (k :: seen) l' in Ok (v :: r)
      end
  end.

Definition unique (l : list value) : result (list value) := unique_go [] l.

(** [pd.DataFrame(records)] for a list of dicts: the columns are the keys in
    order of first appearance, a key a record lacks gives NaN. *)
Definition union_keys (ds : list dict) : list string :=
  foldl (fun acc d => acc ++ filter (fun k => k ∉ acc) (keys d)) [] ds.

Definition from_records (ds : list dict) : DataFrame :=
  let cols := union_keys ds in
  mkDF cols (map (fun d => map (fun c => default VNaN (dict_get d c)) cols) ds).

Fixpoint select {A} (mask : list bool) (l : list A) : list A :=
  match mask, l with
  | b :: mask', x :: l' => if b then x :: select mask' l' else select mask' l'
  | _, _ => []
  end.

(** [df.drop(label, axis=1)]: every column carrying the label goes. *)
Definition drop (label : string) (df : DataFrame) : DataFrame :=
  let mask := map (fun c => negb (String.eqb c label)) (columns df) in
  mkDF (select mask (columns df)) (map (select mask) (rows df)).

(** [df[col] = df[col].fillna(val)] *)
Definition fillna_row (cols : list string) (col : string) (val : value)
    (r : list value) : list value :=
  zip_with (fun c v => if String.eqb c col && is_null v then val else v) cols r.

Definition fillna (col : string) (val : value) (df : DataFrame) : DataFrame :=
  mkDF (columns df) (map (fillna_row (columns df) col val) (rows df)).

(** The rows a left row [l] with key [lk] yields in a left join: one per
    right row with that key, in the order of the right frame, or [l] padded
    with NaN when there is none. *)
Definition join_row (keyed : list (key * list value)) (pad : list value)
    (lk : key) (l : list value) : list (list value) :=
  match filter (fun kr => kr.1 = lk) keyed with
  | [] => [l ++ pad]
  | ms => map (fun kr => l ++ kr.2) ms
  end.

(** [Index.duplicated()]: the positions that repeat an earlier label. *)
Fixpoint duplicated (seen l : list string) : list bool :=
  match l with
  | [] => []
  | x :: l' => bool_decide (x ∈ seen) :: duplicated (x :: seen) l'
  end.

(** What makes the merge refuse its suffixes, the left suffix being empty:
    a renamed right label that repeats an earlier one where the original did
    not, or a right label that, once renamed, is a label of the left
    frame. *)
Definition suffix_duplicates (llabels rcols rlabels : list string) : bool :=
  existsb id (zip_with (fun d d0 => d && negb d0)
                (duplicated [] rlabels) (duplicated [] rcols))
  || existsb (fun c => bool_decide (c ∈ llabels)) rlabels.

(** [left.merge(right, left_on=.., right_on=.., how='left',
    suffixes=('', rsuffix))].  A key label missing on either side is a
    [KeyError].  When both sides name the key alike the right key column is
    dropped; a remaining right column whose label the left frame also has
    gets the suffix.  Labels in common with no suffix to tell them apart are
    a [ValueError]; a suffix that produces a duplicate label is a
    [MergeError]. *)
Definition merge_left (left right : DataFrame)
    (left_on right_on rsuffix : string) : result DataFrame :=
  let* rcells := column right right_on in
  let* lcells := column left left_on in
  let* rkeys := keys_of rcells in
  let* lkeys := keys_of lcells in
  let right' := if String.eqb left_on right_on then drop right_on right else right in
  let overlap := existsb (fun c => bool_decide (c ∈ columns left)) (columns right') in
  let rename c := if bool_decide (c ∈ columns left) then c +:+ rsuffix else c in
  let rlabels := map rename (columns right') in
  let keyed := zip rkeys (rows right') in
  let pad := replicate (length (columns right')) VNaN in
  if overlap && String.eqb rsuffix "" then Raise ValueError
  else if overlap && suffix_duplicates (columns left) (columns right') rlabels
  then Raise MergeError
  else
    Ok (mkDF (columns left ++ rlabels)
             (concat (zip_with (join_row keyed pad) lkeys (rows left)))).

End Pandas.

(** ** Effects: the trace of a run *)

Module Effects.
Import Py Pandas.

(** What [requests.get] can do: raise [requests.exceptions.Timeout], raise
    any other exception, or return a response with a status code and a
    body; the body is [None] when [response.json()] raises. *)
Inductive outcome : Type :=
| Timeout
| ConnectionError
| Response (status : Z) (body : option value).

Inductive level : Type := INFO | WARNING | ERROR.

(** [EvLookup] is a marker, not an effect: it records that the Google
    script entered [get_book_info_from_google] for a title key. *)
Inductive event : Type :=
| EvGet (url : string) (params : dict)
| EvSleep (ms : Z)
| EvLog (lvl : level)
| EvToCsv (path : string) (df : DataFrame)
| EvLookup (title_key : string).

Definition is_get (e : event) : bool :=
  match e with EvGet _ _ => true | _ => false end.

(** The requests of a trace, in order. *)
Definition requests (tr : list event) : list event := List.filter is_get tr.

(** The title keys looked up remotely in a trace, in order. *)
Definition lookups (tr : list event) : list string :=
  omap (fun e => match e with EvLookup k => Some k | _ => None end) tr.

(** A computation reads the trace so far and extends it; an exception keeps
    the trace reached when it was raised. *)
Definition M (A : Type) : Type := list event -> result A * list event.

Definition ret {A} (a : A) : M A := fun tr => (Ok a, tr).

Definition raise {A} (e : exn) : M A := fun tr => (Raise e, tr).

Definition bind {A B} (m : M A) (k : A -> M B) : M B :=
  fun tr =>
    match m tr with
    | (Ok a, tr') => k a tr'
    | (Raise e, tr') => (Raise e, tr')
    end.

Definition lift {A} (r : result A) : M A := fun tr => (r, tr).

Definition emit (e : event) : M unit := fun tr => (Ok tt, tr ++ [e]).

Notation "'do' x '<-' m ';' k" := (bind m (fun x => k))
  (at level 10, x name, m at level 100, k at level 200).
Notation "m ';;' k" := (bind m (fun _ => k))
  (at level 100, k at level 200, right associativity).

Definition sleep (ms : Z) : M unit := emit (EvSleep ms).

(** [log_message(message, level)]: one line on the console and in the
    day's log file.  The text and the timestamp are not modelled. *)
Definition log_message (lvl : level) : M unit := emit (EvLog lvl).

End Effects.

(** ** scripts/api_enrichment.py *)

Module ApiEnrichment.
Import Py Pandas Effects.

(** The declared enrichment attributes, in the order of the record. *)
Definition enrichment_attributes : list string :=
  [ "api_found"; "api_title"; "api_author"; "api_authors_all";
    "api_first_publish_year"; "api_isbn"; "api_isbn_all"; "api_publisher";
    "api_publishers_all"; "api_language"; "api_number_of_pages";
    "api_subject"; "api_edition_count"; "api_has_fulltext";
    "api_search_url" ].

Definition get_default_data (found : bool) : dict :=
  [ ("api_found", VBool found);
    ("api_title", VStr "Unknown");
    ("api_author", VStr "Unknown Author");
    ("api_authors_all", VStr "Unknown Author");
    ("api_first_publish_year", VInt 2020);
    ("api_isbn", VInt 0);
    ("api_isbn_all", VStr "0");
    ("api_publisher", VStr "Unknown Publisher");
    ("api_publishers_all", VStr "Unknown Publisher");
    ("api_language", VStr "en");
    ("api_number_of_pages", VInt 200);
    ("api_subject", VStr "General");
    ("api_edition_count", VInt 1);
    ("api_has_fulltext", VBool false);
    ("api_search_url", VStr "https://openlibrary.org/") ].

Definition base_url : string := "https://openlibrary.org/search.json".

Section Script.

Variable repr : value -> string.

(** The network: the outcome of a request, given how many requests the run
    has issued before it. *)
Variable net : nat -> string -> dict -> outcome.

(** [np.random.permutation n], from which [np.random.choice] without
    replacement takes its sample. *)
Variable permutation : nat -> list nat.

(** The file system as [main] sees it. *)
Variable path_exists : string -> bool.
Variable read_csv : string -> DataFrame.

Definition requests_get (url : string) (params : dict) : M outcome :=
  fun tr => (Ok (net (length (requests tr)) url params), tr ++ [EvGet url params]).

(** [', '.join(book.get(k, [])[:n]) if book.get(k) else dflt]; [n = None]
    is the unsliced form. *)
Definition joined_or (book : value) (k : string) (n : option nat)
    (dflt : string) : result value :=
  let* c := py_get book k VNone in
  if truthy c then
    let* l := py_get book k (VList []) in
    let* l' := match n with Some n => py_slice n l | None => Ok l end in
    py_join ", " l'
  else Ok (VStr dflt).

(** The record built from the first document of a successful search. *)
Definition found_record (book : value) : result dict :=
  let* title := py_get book "title" (VStr "Unknown") in
  let* authors := py_get book "author_name" (VList [VStr "Unknown Author"]) in
  let* author := py_index0 authors in
  let* authors_all := joined_or book "author_name" None "Unknown" in
  let* year := py_get book "first_publish_year" (VInt 2020) in
  let* isbns := py_get book "isbn" (VList [VInt 0]) in
  let* isbn := py_index0 isbns in
  let* isbn_all := joined_or book "isbn" (Some 3%nat) "0" in
  let* publishers := py_get book "publisher" (VList [VStr "Unknown"]) in
  let* publisher := py_index0 publishers in
  let* publishers_all := joined_or book "publisher" (Some 3%nat) "Unknown" in
  let* languages := py_get book "language" (VList [VStr "en"]) in
  let* language := py_index0 languages in
  let* pages := py_get book "number_of_pages_median" (VInt 200) in
  let* subject := joined_or book "subject" (Some 5%nat) "General" in
  let* editions := py_get book "edition_count" (VInt 1) in
  let* fulltext := py_get book "has_fulltext" (VBool false) in
  let* k := py_get book "key" VNone in
  let* url :=
    if truthy k then
      let* k' := py_get book "key" (VStr "") in
      Ok (VStr ("https://openlibrary.org" +:+ py_str repr k'))
    else Ok (VStr "https://openlibrary.org/") in
  Ok [ ("api_found", VBool true);
       ("api_title", title);
       ("api_author", author);
       ("api_authors_all", authors_all);
       ("api_first_publish_year", year);
       ("api_isbn", isbn);
       ("api_isbn_all", isbn_all);
       ("api_publisher", publisher);
       ("api_publishers_all", publishers_all);
       ("api_language", language);
       ("api_number_of_pages", pages);
       ("api_subject", subject);
       ("api_edition_count", editions);
       ("api_has_fulltext", fulltext);
       ("api_search_url", url) ].

(** The body of [if response.status_code == 200:], given the decoded JSON. *)
Definition on_success (data : value) : result dict :=
  let* docs := py_get data "docs" VNone in
  let* nonempty :=
    if truthy docs then
      let* docs' := py_item data "docs" in
      let* n := py_len docs' in
      Ok (Nat.ltb 0 n)
    else Ok false in
  if nonempty then
    let* docs' := py_item data "docs" in
    let* book := py_index0 docs' in
    found_record book
  else Ok (get_default_data false).

(** The handler [except Exception as e]: the warning quotes [title[:20]],
    which itself raises when the title cannot be sliced. *)
Definition on_exception (title : value) : M unit :=
  do _ <- lift (py_slice 20 title);
  log_message WARNING.

(** The loop [for attempt in range(max_retries)], on the attempts left. *)
Fixpoint attempts (title : value) (clean_title : string) (max_retries : Z)
    (todo : list Z) : M dict :=
  match todo with
  | [] => ret (get_default_data false)
  | attempt :: rest =>
      do r <- requests_get base_url [("title", VStr clean_title); ("limit", VInt 1)];
      match r with
      | Timeout =>
          (if bool_decide (attempt < max_retries - 1) then sleep 2000 else ret tt) ;;
          attempts title clean_title max_retries rest
      | ConnectionError =>
          on_exception title ;;
          attempts title clean_title max_retries rest
      | Response status body =>
          if bool_decide (status = 200) then
            match body with
            | None =>
                on_exception title ;;
                attempts title clean_title max_retries rest
            | Some data =>
                match on_success data with
                | Ok record => ret record
                | Raise _ =>
                    on_exception title ;;
                    attempts title clean_title max_retries rest
                end
            end
          else attempts title clean_title max_retries rest
      end
  end.

Definition search_book_by_title (title : value) (max_retries : Z) : M dict :=
  let clean_title := strip (py_str repr title) in
  if negb (truthy (VStr clean_title)) || bool_decide (lower clean_title = "nan")
  then ret (get_default_data false)
  else attempts title clean_title max_retries (seqZ 0 max_retries).

(** [np.random.choice(a, size, replace=False)]: the first [size] entries of
    a permutation of the positions of [a]. *)
Definition random_choice (a : list value) (size : nat) : list value :=
  map (fun i => default VNaN (a !! i)) (take size (permutation (length a))).

(** The loop [for idx, title in enumerate(titles_to_process, 1)]; [total]
    is [len(titles_to_process)]. *)
Fixpoint process_titles (delay : Z) (total idx : nat) (titles : list value)
    : M (list dict) :=
  match titles with
  | [] => ret []
  | title :: rest =>
      (if Nat.eqb (idx mod 5) 0 || Nat.eqb idx 1 || Nat.eqb idx total
       then log_message INFO else ret tt) ;;
      do api_result <- search_book_by_title title 3;
      let api_result := dict_set api_result "original_title" title in
      sleep delay ;;
      do enriched_data <- process_titles delay total (S idx) rest;
      ret (api_result :: enriched_data)
  end.

(** The completeness pass: [for col, val in default_vals.items()]. *)
Definition fill_defaults (df : DataFrame) : DataFrame :=
  foldl (fun df cv =>
           if bool_decide (cv.1 ∈ columns df) then fillna cv.1 cv.2 df else df)
        df (get_default_data false).

Definition enrich_dataset_with_api (df : DataFrame) (title_column : string)
    (sample_size : option nat) (delay : Z) : M DataFrame :=
  log_message INFO ;; log_message INFO ;; log_message INFO ;;
  if negb (bool_decide (title_column ∈ columns df)) then
    log_message ERROR ;;
    ret df
  else
    do titles <- lift (column df title_column);
    do unique_titles <- lift (unique (dropna titles));
    let total_unique := length unique_titles in
    do titles_to_process <-
      match sample_size with
      | Some (S n) =>
          if Nat.ltb (S n) total_unique
          then log_message INFO ;; ret (random_choice unique_titles (S n))
          else log_message INFO ;; ret unique_titles
      | _ => log_message INFO ;; ret unique_titles
      end;
    log_message INFO ;;
    do enriched_data <-
      process_titles delay (length titles_to_process) 1 titles_to_process;
    let enriched_df := from_records enriched_data in
    log_message INFO ;;
    do result_df <-
      lift (merge_left df enriched_df title_column "original_title" "_api_dup");
    let result_df :=
      if bool_decide ("original_title" ∈ columns result_df)
      then drop "original_title" result_df else result_df in
    log_message INFO ;;
    ret (fill_defaults result_df).

(** [BASE_PATH], [OUTPUT_PATH] and the output file of [main]. *)
Definition BASE_PATH : string := if path_exists "/app" then "/app" else ".".
Definition OUTPUT_PATH : string := BASE_PATH +:+ "/output".
Definition output_file : string := OUTPUT_PATH +:+ "/ML_Dataset_Enriched.csv".

(** [main()]: [None] when the input file is missing, else the frame that was
    written to [output_file].  The test [if enriched_df is None] has no
    counterpart: [enrich_dataset_with_api] returns a frame on every path. *)
Definition main : M (option DataFrame) :=
  log_message INFO ;; log_message INFO ;; log_message INFO ;;
  log_message INFO ;; log_message INFO ;;
  let input_file := "data/Merged_OLTP_Books_Cleaned0.csv" in
  let input_file :=
    if negb (path_exists input_file) then "Merged_OLTP_Books_Cleaned0.csv"
    else input_file in
  if negb (path_exists input_file) then
    log_message ERROR ;;
    ret None
  else
    log_message INFO ;;
    let df := read_csv input_file in
    do enriched_df <- enrich_dataset_with_api df "Title" None 200;
    emit (EvToCsv output_file enriched_df) ;;
    log_message INFO ;; log_message INFO ;;
    ret (Some enriched_df).

End Script.

End ApiEnrichment.

(** ** scripts/get_google_data.py *)

Module GoogleData.
Import Py Pandas Effects.

Definition INPUT_FILE : string := "output/ML_Dataset_From_DB.csv".
Definition OUTPUT_FILE : string := "output/ML_Dataset_Enriched_Google.csv".
Definition base_url : string := "https://www.googleapis.com/books/v1/volumes".

(** A cache entry: the dict with keys rating, count, pages, categories and
    desc that the loop builds and [json.dump] writes. *)
Record info : Type := mkInfo {
  rating : value;
  count : value;
  pages : value;
  categories : value;
  desc : value
}.

(** What the loop carries from row to row.  [cache_file] is the content of
    the durable cache file ([None]: no file yet). *)
Record loop_state : Type := mkState {
  cache : gmap string info;
  cache_file : option (gmap string info);
  new_data : list info;
  rows_processed : nat
}.

(** [row.get(label, dflt)] on a row of a frame with columns [cols]. *)
Definition row_get (cols : list string) (row : list value) (label : string)
    (dflt : value) : value :=
  match list_find (fun x => x = label) cols with
  | Some (i, _) => default VNaN (row !! i)
  | None => dflt
  end.

(** [df[label] = values] *)
Definition assign (label : string) (values : list value) (df : DataFrame)
    : DataFrame :=
  match col_index df label with
  | Some i =>
      mkDF (columns df)
           (zip_with (fun r v => <[i := v]> r) (rows df) values)
  | None =>
      mkDF (columns df ++ [label])
           (zip_with (fun r v => r ++ [v]) (rows df) values)
  end.

Section Script.

Variable repr : value -> string.
Variable net : nat -> string -> dict -> outcome.

Definition requests_get (url : string) : M outcome :=
  fun tr => (Ok (net (length (requests tr)) url []), tr ++ [EvGet url []]).

(** The body of one [try:] block: [None] when the response has no usable
    item; the bare [except: pass] swallows every exception. *)
Definition first_volume (data : value) : result (option value) :=
  let* has_items := py_contains "items" data in
  if has_items then
    let* items := py_item data "items" in
    let* item := py_index0 items in
    let* volume := py_item item "volumeInfo" in
    Ok (Some volume)
  else Ok None.

Definition query (url : string) : M (option value) :=
  do r <- requests_get url;
  match r with
  | Response status (Some data) =>
      if bool_decide (status = 200) then
        match first_volume data with
        | Ok found => ret found
        | Raise _ => ret None
        end
      else ret None
  | _ => ret None
  end.

Definition usable (v : value) (sentinels : list string) : bool :=
  truthy v && negb (bool_decide (lower (py_str repr v) ∈ sentinels)).

Definition title_query (title author : value) : string :=
  let q := "intitle:" +:+ py_str repr title in
  if usable author ["unknown"] then q +:+ "+inauthor:" +:+ py_str repr author
  else q.

(** The second block of [get_book_info_from_google]. *)
Definition by_title (title author : value) : M value :=
  if usable title ["unknown"] then
    do found <- query (base_url +:+ "?q=" +:+ title_query title author +:+ "&maxResults=1");
    match found with
    | Some volume => ret volume
    | None => ret VNone
    end
  else ret VNone.

(** [get_book_info_from_google(isbn, title, author)]; the result [VNone]
    is Python's [None]. *)
Definition get_book_info_from_google (isbn title author : value) : M value :=
  if usable isbn ["nan"; "unknown"] then
    let clean_isbn := strip (remove_char "-"%char (py_str repr isbn)) in
    do found <- query (base_url +:+ "?q=isbn:" +:+ clean_isbn);
    match found with
    | Some volume => ret volume
    | None => by_title title author
    end
  else by_title title author.

(** [title_key = str(row.get('Title', 'Unknown')).strip()] *)
Definition title_key (cols : list string) (row : list value) : string :=
  strip (py_str repr (row_get cols row "Title" (VStr "Unknown"))).

(** "Rapikan hasil": the entry built from a lookup result. *)
Definition tidy (info_raw : value) : result info :=
  if truthy info_raw then
    let* r := py_get info_raw "averageRating" (VInt 0) in
    let* c := py_get info_raw "ratingsCount" (VInt 0) in
    let* p := py_get info_raw "pageCount" (VInt 0) in
    let* cs := py_get info_raw "categories" (VList [VStr "Unknown"]) in
    let* cats := py_join ", " cs in
    let* d := py_get info_raw "description" (VStr "") in
    Ok (mkInfo r c p cats d)
  else Ok (mkInfo (VInt 0) (VInt 0) (VInt 0) (VStr "Unknown") (VStr "")).

(** One iteration of [for index, row in df.iterrows()]. *)
Definition process_row (cols : list string) (st : loop_state)
    (row : list value) : M loop_state :=
  let key := title_key cols row in
  do hit <-
    match cache st !! key with
    | Some i => ret (i, st)
    | None =>
        let isbn := row_get cols row "api_isbn" (VStr "") in
        let author := row_get cols row "api_author" (VStr "") in
        emit (EvLookup key) ;;
        do info_raw <- get_book_info_from_google isbn (VStr key) author;
        do i <- lift (tidy info_raw);
        let cache' := <[key := i]> (cache st) in
        let file' :=
          if Nat.eqb (rows_processed st mod 50) 0 then Some cache'
          else cache_file st in
        sleep 500 ;;
        ret (i, mkState cache' file' (new_data st) (rows_processed st))
    end;
  let '(i, st') := hit in
  ret (mkState (cache st') (cache_file st') (new_data st' ++ [i])
               (S (rows_processed st'))).

Fixpoint main_loop (cols : list string) (st : loop_state)
    (rows : list (list value)) : M loop_state :=
  match rows with
  | [] => ret st
  | row :: rest =>
      do st' <- process_row cols st row;
      main_loop cols st' rest
  end.

(** The state in which the loop starts: the cache as loaded from the file,
    or empty when there is no file. *)
Definition initial_state (file : option (gmap string info)) : loop_state :=
  mkState (default ∅ file) file [] 0.

(** Entries of the in-memory cache that the cache file does not hold: what
    a crash at this point loses. *)
Definition unflushed (st : loop_state) : nat :=
  size (cache st ∖ default ∅ (cache_file st)).

(** [main()], from the loaded input ([None]: [FileNotFoundError]) and the
    cache file: the final content of the cache file, after the output frame
    has been written. *)
Definition main (input : option DataFrame) (file : option (gmap string info))
    : M (option (gmap string info)) :=
  match input with
  | None => ret file
  | Some df =>
      do st <- main_loop (columns df) (initial_state file) (rows df);
      let df := assign "google_rating" (map rating (new_data st)) df in
      let df := assign "google_ratings_count" (map count (new_data st)) df in
      let df := assign "google_page_count" (map pages (new_data st)) df in
      let df := assign "google_categories" (map categories (new_data st)) df in
      let df := assign "google_description" (map desc (new_data st)) df in
      emit (EvToCsv OUTPUT_FILE df) ;;
      ret (Some (cache st))
  end.

End Script.

End GoogleData.

(** * Vocabulary of the properties *)

Module Notions.
Import Py Pandas Effects.

Section Search.
Import ApiEnrichment.


(** The request that every attempt for a cleaned title issues. *)
Definition search_request (clean_title : string) : event :=
  EvGet base_url [("title", VStr clean_title); ("limit", VInt 1)].

(** A response that is a success with an empty result set. *)
Definition is_no_match (o : outcome) : bool :=
  match o with
  | Response status (Some (VDict d)) =>
      Z.eqb status 200 && negb (truthy (default VNone (dict_get d "docs")))
  | _ => false
  end.

(** An attempt that fails: a timeout, another exception, a status other
    than 200 or a body that is not JSON. *)
Definition is_failure (o : outcome) : bool :=
  match o with
  | Timeout | ConnectionError => true
  | Response status body =>
      negb (Z.eqb status 200) || match body with None => true | Some _ => false end
  end.

(** Which field of a source document feeds which attribute of the record. *)
Definition source_field : list (string * string) :=
  [ ("api_title", "title"); ("api_author", "author_name");
    ("api_authors_all", "author_name");
    ("api_first_publish_year", "first_publish_year");
    ("api_isbn", "isbn"); ("api_isbn_all", "isbn");
    ("api_publisher", "publisher"); ("api_publishers_all", "publisher");
    ("api_language", "language");
    ("api_number_of_pages", "number_of_pages_median");
    ("api_subject", "subject"); ("api_edition_count", "edition_count");
    ("api_has_fulltext", "has_fulltext"); ("api_search_url", "key") ].

(** The attributes that join a list field of the source document, with
    the field and the number of items kept ([None]: all of them). *)
Definition joined_fields : list (string * string * option nat) :=
  [ ("api_authors_all", "author_name", None);
    ("api_isbn_all", "isbn", Some 3%nat);
    ("api_publishers_all", "publisher", Some 3%nat);
    ("api_subject", "subject", Some 5%nat) ].

(** The attributes whose inline fallback is not the constant of
    [get_default_data]. *)
Definition mismatched_attributes : list string :=
  [ "api_authors_all"; "api_publisher"; "api_publishers_all" ].

End Search.

Section Enrichment.
Import ApiEnrichment.

(** Every row has one cell per column. *)
Definition rectangular (df : DataFrame) : Prop :=
  Forall (fun r => length r = length (columns df)) (rows df).

(** A title cell as the input contract has it: text, or missing. *)
Definition text_or_null (v : value) : bool :=
  match v with
  | VNone | VNaN | VStr _ => true
  | _ => false
  end.

Definition is_str (v : value) : bool :=
  match v with
  | VStr _ => true
  | _ => false
  end.

(** The shape of an entry of [enriched_data] for a title. *)
Definition entry_of (title : value) (d : dict) : Prop :=
  exists record,
    keys record = enrichment_attributes /\ d = record ++ [("original_title", title)].

(** The columns of the enrichment table. *)
Definition record_columns : list string :=
  enrichment_attributes ++ ["original_title"].

(** An input dataset with its title column: distinct column labels, one
    cell per column in every row, the title column present and textual. *)
Definition dataset (df : DataFrame) (title_column : string) : bool :=
  bool_decide (NoDup (columns df))
  && forallb (fun r => Nat.eqb (length r) (length (columns df))) (rows df)
  && match column df title_column with
     | Ok cells => forallb text_or_null cells
     | Raise _ => false
     end.

(** Some row has a title. *)
Definition some_title (df : DataFrame) (title_column : string) : bool :=
  match column df title_column with
  | Ok cells => existsb (fun v => negb (is_null v)) cells
  | Raise _ => false
  end.

(** The suffix of the merge gives no label twice: no label of the
    enrichment table is a label of the input together with its suffixed
    form. *)
Definition no_suffix_clash (df : DataFrame) : bool :=
  forallb (fun a => negb (bool_decide (a ∈ columns df)
                          && bool_decide (a +:+ "_api_dup" ∈ columns df)))
          record_columns.

(** No label of the enrichment table is a label of the input. *)
Definition fresh_labels (df : DataFrame) : bool :=
  forallb (fun a => negb (bool_decide (a ∈ columns df))) record_columns.

(** The no-break space U+00A0, in UTF-8. *)
Definition nbsp : string :=
  String (ascii_of_nat 194) (String (ascii_of_nat 160) EmptyString).

(** An input that has a column labelled like a declared attribute and one
    labelled like its suffixed form. *)
Definition clashing : DataFrame :=
  mkDF ["Title"; "api_author"; "api_author_api_dup"]
       [[VStr "Dune"; VStr "F. Herbert"; VStr "Herbert"]].

(** The random source returns permutations. *)
Definition permutation_ok (permutation : nat -> list nat) : Prop :=
  forall n, permutation n ≡ₚ seq 0 n.

(** What filling from a dict of defaults leaves in a cell of column [c]. *)
Definition fill_with (defaults : dict) (c : string) (v : value) : value :=
  if is_null v then default v (dict_get defaults c) else v.

(** The loop of the completeness pass, for any dict of defaults. *)
Definition fill_step (df : DataFrame) (cv : string * value) : DataFrame :=
  if bool_decide (cv.1 ∈ columns df) then fillna cv.1 cv.2 df else df.


(** An input without a title column, one whose only title is missing, and
    the file system that holds one input file. *)
Definition untitled : DataFrame :=
  mkDF ["Judul"; "Harga"] [[VStr "Laskar Pelangi"; VInt 79000]].

Definition blank_titles : DataFrame :=
  mkDF ["Title"; "Price"] [[VNaN; VInt 79000]].

Definition only_input (path : string) : bool :=
  String.eqb path "data/Merged_OLTP_Books_Cleaned0.csv".

End Enrichment.

Section Google.
Import GoogleData.

(** A Google Books answer without items. *)
Definition no_items : outcome :=
  Response 200 (Some (VDict [("totalItems", VInt 0)])).

Definition dune_volume : value :=
  VDict [("title", VStr "Dune"); ("authors", VList [VStr "Frank Herbert"]);
         ("pageCount", VInt 412)].

(** A network on which only the query by title alone finds [Dune]. *)
Definition title_only_net (_ : nat) (url : string) (_ : dict) : outcome :=
  if String.eqb url (base_url +:+ "?q=intitle:Dune&maxResults=1")
  then Response 200 (Some (VDict [("totalItems", VInt 1);
         ("items", VList [VDict [("volumeInfo", dune_volume)]])]))
  else no_items.

(** A one-column input of 53 rows: fifty distinct titles, then the title
    of row 1 again at row 50, then two new titles. *)
Definition cadence_rows : list (list value) :=
  map (fun i : nat => [VStr ("Book " +:+ pretty i)])
      (seq 0 50 ++ [1; 51; 52])%nat.

(** The entry the loop stores for a title that was not found. *)
Definition not_found_entry : info :=
  mkInfo (VInt 0) (VInt 0) (VInt 0) (VStr "Unknown") (VStr "").

(** The columns the script adds, in order, and the cells an entry puts
    under them. *)
Definition google_columns : list string :=
  ["google_rating"; "google_ratings_count"; "google_page_count";
   "google_categories"; "google_description"].

Definition google_cells (i : info) : list value :=
  [rating i; count i; pages i; categories i; desc i].

(** An outcome of a request from which no volume can be read: an
    exception, a status other than 200, a body that is not JSON, or a body
    without a usable first item. *)
Definition no_volume (o : outcome) : bool :=
  match o with
  | Response status (Some data) =>
      negb (Z.eqb status 200) ||
      match first_volume data with
      | Ok (Some _) => false
      | _ => true
      end
  | _ => true
  end.

(** A network on which only the query by identifier finds [Dune]. *)
Definition isbn_only_net (_ : nat) (url : string) (_ : dict) : outcome :=
  if String.eqb url (base_url +:+ "?q=isbn:9780441013593")
  then Response 200 (Some (VDict [("totalItems", VInt 1);
         ("items", VList [VDict [("volumeInfo", dune_volume)]])]))
  else no_items.

Section Invariant.

Variable repr : value -> string.

(** What holds between rows: the rows processed so far were each served
    the cache entry of their key, every key looked up is cached and was not
    pre-loaded, and pre-loaded entries are still there. *)
Definition between_rows (file : option (gmap string info)) (cols : list string)
    (processed : list (list value)) (st : loop_state) (tr : list event) : Prop :=
  NoDup (lookups tr)
  /\ (forall k, k ∈ lookups tr ->
        default ∅ file !! k = None /\ is_Some (cache st !! k))
  /\ default ∅ file ⊆ cache st
  /\ (length (requests tr) <= 2 * length (lookups tr))%nat
  /\ Forall2 (fun row i => cache st !! title_key repr cols row = Some i)
       processed (new_data st).

(** What holds of the trace at any point, also after a crash. *)
Definition lookups_once (file : option (gmap string info)) (tr : list event)
    : Prop :=
  NoDup (lookups tr)
  /\ (forall k, k ∈ lookups tr -> default ∅ file !! k = None)
  /\ (length (requests tr) <= 2 * length (lookups tr))%nat.

End Invariant.

End Google.

End Notions.

(** * Properties *)

(** ** Traces *)

Module TraceProps.
Import Py Pandas Effects.

Lemma requests_app tr1 tr2 : requests (tr1 ++ tr2) = requests tr1 ++ requests tr2.
Proof. unfold requests. apply List.filter_app. Qed.

Lemma lookups_app tr1 tr2 : lookups (tr1 ++ tr2) = lookups tr1 ++ lookups tr2.
Proof. unfold lookups. apply omap_app. Qed.

End TraceProps.

(** ** Open Library lookup: [search_book_by_title] *)

Module SearchProps.
Import Py Pandas Effects ApiEnrichment Notions TraceProps.

Section Lemmas.

Variable repr : value -> string.
Variable net : nat -> string -> dict -> outcome.



Lemma attempts_all_failures (s : string) clean_title max_retries :
  (forall n url params, is_failure (net n url params) = true) ->
  forall todo tr,
    (attempts repr net (VStr s) clean_title max_retries todo tr).1 =
      Ok (get_default_data false).
Proof.
  intros Hnet. induction todo as [|a todo IH]; intros tr; [done|].
  cbn [attempts]. unfold bind at 1, requests_get.
  specialize (Hnet (length (requests tr)) base_url
                [("title", VStr clean_title); ("limit", VInt 1)]).
  destruct (net _ _ _) as [| |status body].
  - case_bool_decide; unfold bind, sleep, emit, ret; apply IH.
  - unfold bind, on_exception, lift, log_message, emit. simpl. apply IH.
  - case_bool_decide as Hs.
    + subst status. destruct body; [done|].
      unfold bind, on_exception, lift, log_message, emit. simpl. apply IH.
    + apply IH.
Qed.

Lemma on_success_no_match d :
  truthy (default VNone (dict_get d "docs")) = false ->
  on_success repr (VDict d) = Ok (get_default_data false).
Proof. intros H. unfold on_success. simpl. by rewrite H. Qed.

Lemma attempts_no_match title clean_title max_retries todo tr :
  (forall n url params, is_no_match (net n url params) = true) ->
  (attempts repr net title clean_title max_retries todo tr).1 =
    Ok (get_default_data false).
Proof.
  intros Hnet. destruct todo as [|a todo]; [done|].
  cbn [attempts]. unfold bind at 1, requests_get.
  specialize (Hnet (length (requests tr)) base_url
                [("title", VStr clean_title); ("limit", VInt 1)]).
  destruct (net _ _ _) as [| |status [[| | | | | |d]|]]; try done.
  simpl in Hnet. apply andb_true_iff in Hnet as [Hs Hd].
  apply Z.eqb_eq in Hs as ->.
  rewrite bool_decide_eq_true_2 by done.
  rewrite on_success_no_match; [done|].
  by destruct (truthy _).
Qed.

Lemma strip_nan : strip "nan" = "nan".
Proof. reflexivity. Qed.

Lemma search_short_circuit title max_retries tr :
  strip (py_str repr title) = "" \/ lower (strip (py_str repr title)) = "nan" ->
  search_book_by_title repr net title max_retries tr =
    (Ok (get_default_data false), tr).
Proof.
  intros H. unfold search_book_by_title.
  destruct H as [-> | ->]; [done|].
  rewrite bool_decide_eq_true_2 by done. by rewrite orb_true_r.
Qed.

Lemma search_attempts title max_retries tr :
  strip (py_str repr title) <> "" ->
  lower (strip (py_str repr title)) <> "nan" ->
  search_book_by_title repr net title max_retries tr =
    attempts repr net title (strip (py_str repr title)) max_retries
      (seqZ 0 max_retries) tr.
Proof.
  intros H1 H2. unfold search_book_by_title.
  rewrite bool_decide_eq_false_2 by done.
  destruct (strip (py_str repr title)); [done|reflexivity].
Qed.

(** A document that omits a source field leaves, in every attribute outside
    [mismatched_attributes], the constant of the default record. *)
Lemma found_record_omitted d record attribute field :
  found_record repr (VDict d) = Ok record ->
  (attribute, field) ∈ source_field ->
  attribute ∉ mismatched_attributes ->
  dict_get d field = None ->
  dict_get record attribute = dict_get (get_default_data false) attribute.
Proof.
  intros Hrec Hin Hnot Hd. unfold found_record, joined_or in Hrec.
  simpl in Hrec.
  unfold source_field, mismatched_attributes in *.
  repeat (apply elem_of_cons in Hin as [Hin|Hin];
          [injection Hin as -> ->; rewrite Hd in Hrec; simpl in Hrec|]);
    try (by apply elem_of_nil in Hin);
    try (exfalso; apply Hnot; set_solver);
    repeat match type of Hrec with
           | rbind ?x _ = Ok _ => destruct x eqn:?; simpl in Hrec; [|done]
           | (if ?b then _ else _) = Ok _ => destruct b eqn:?; simpl in Hrec
           end;
    by injection Hrec as <-.
Qed.

End Lemmas.

(** C9.  A title that is empty after trimming, or whose string form is
    [nan], gets the default not-found record (discovery flag false) and
    the trace is left as it was: no request is issued. *)
Theorem blank_title_short_circuit repr net (title : value) (max_retries : Z)
    (tr : list event) :
  strip (py_str repr title) = "" \/ py_str repr title = "nan" ->
  search_book_by_title repr net title max_retries tr =
    (Ok (get_default_data false), tr)
  /\ dict_get (get_default_data false) "api_found" = Some (VBool false).
Proof.
  intros H. split; [|done].
  apply search_short_circuit. destruct H as [H|H]; [by left|right].
  by rewrite H.
Qed.

Lemma blank_title_short_circuit_witness :
  search_book_by_title (fun _ => "") (fun _ _ _ => Timeout) (VStr "   ") 3 [] =
    (Ok (get_default_data false), [])
  /\ search_book_by_title (fun _ => "") (fun _ _ _ => Timeout) VNaN 3 [] =
    (Ok (get_default_data false), []).
Proof.
  split.
  - apply (blank_title_short_circuit (fun _ => "") (fun _ _ _ => Timeout)
             (VStr "   ") 3 []).
    left. reflexivity.
  - apply (blank_title_short_circuit (fun _ => "") (fun _ _ _ => Timeout)
             VNaN 3 []).
    right. reflexivity.
Defined.




(** C6, as the claim states it, fails: for the title [Dune] the value
    returned after a successful but empty response and the value returned
    after three timeouts are the same value. *)
Lemma no_match_failure_counterexample :
  let empty := Response 200 (Some (VDict [("docs", VList [])])) in
  let no_match :=
    (search_book_by_title (fun _ => "") (fun _ _ _ => empty) (VStr "Dune") 3 []).1 in
  let failure :=
    (search_book_by_title (fun _ => "") (fun _ _ _ => Timeout) (VStr "Dune") 3 []).1 in
  no_match = Ok (get_default_data false) /\ no_match = failure.
Proof. split; reflexivity. Qed.

(** C6, amended.  For every textual title, the value returned when the
    source answers with an empty result set and the value returned when
    every attempt fails (timeout, other exception, error status, undecodable
    body) are both the default not-found record, hence equal. *)
Theorem no_match_and_failure_coincide repr net_empty net_down (title : string)
    (max_retries : Z) (tr tr' : list event) :
  (forall n url params, is_no_match (net_empty n url params) = true) ->
  (forall n url params, is_failure (net_down n url params) = true) ->
  (search_book_by_title repr net_empty (VStr title) max_retries tr).1 =
    Ok (get_default_data false)
  /\ (search_book_by_title repr net_down (VStr title) max_retries tr').1 =
    (search_book_by_title repr net_empty (VStr title) max_retries tr).1.
Proof.
  intros Hempty Hdown.
  assert (forall net, search_book_by_title repr net (VStr title) max_retries =
            ret (get_default_data false) \/
          search_book_by_title repr net (VStr title) max_retries =
            attempts repr net (VStr title) (strip title) max_retries
              (seqZ 0 max_retries)) as Hcases.
  { intros net. unfold search_book_by_title. simpl.
    destruct (negb _ || _); [by left|by right]. }
  destruct (Hcases net_empty) as [-> | ->], (Hcases net_down) as [-> | ->];
    rewrite ?attempts_no_match, ?attempts_all_failures by done; done.
Qed.

Lemma no_match_and_failure_coincide_witness :
  (search_book_by_title (fun _ => "")
     (fun _ _ _ => Response 200 (Some (VDict []))) (VStr "Dune") 3 []).1 =
    Ok (get_default_data false)
  /\ (search_book_by_title (fun _ => "")
        (fun _ _ _ => ConnectionError) (VStr "Dune") 3 []).1 =
     (search_book_by_title (fun _ => "")
        (fun _ _ _ => Response 200 (Some (VDict []))) (VStr "Dune") 3 []).1.
Proof.
  apply (no_match_and_failure_coincide (fun _ => "")
           (fun _ _ _ => Response 200 (Some (VDict [])))
           (fun _ _ _ => ConnectionError) "Dune" 3 [] []); done.
Defined.

(** C10, at a document that omits its publisher: the record has discovery
    flag true and its publisher attributes are [Unknown], which is not the
    constant [Unknown Publisher] of the default record; with no author
    list, [api_authors_all] is [Unknown] against [Unknown Author]. *)
Lemma found_record_publisher_fallback :
  let book := VDict [("title", VStr "Dune"); ("key", VStr "/works/OL893415W")] in
  let net := fun (_ : nat) (_ : string) (_ : dict) =>
    Response 200 (Some (VDict [("numFound", VInt 1); ("docs", VList [book])])) in
  exists record,
    (search_book_by_title (fun _ => "") net (VStr "Dune") 3 []).1 = Ok record
    /\ dict_get record "api_found" = Some (VBool true)
    /\ dict_get record "api_publisher" = Some (VStr "Unknown")
    /\ dict_get record "api_publishers_all" = Some (VStr "Unknown")
    /\ dict_get record "api_authors_all" = Some (VStr "Unknown")
    /\ dict_get (get_default_data false) "api_publisher" = Some (VStr "Unknown Publisher")
    /\ dict_get (get_default_data false) "api_publishers_all" = Some (VStr "Unknown Publisher")
    /\ dict_get (get_default_data false) "api_authors_all" = Some (VStr "Unknown Author").
Proof. eexists. repeat split; reflexivity. Qed.

End SearchProps.

(** ** Google Books lookup and the title-keyed cache *)

Module GoogleProps.
Import Py Pandas Effects GoogleData Notions TraceProps.

Section Lemmas.

Variable repr : value -> string.
Variable net : nat -> string -> dict -> outcome.

(** A query issues exactly one request and never raises. *)
Lemma query_trace url tr :
  exists found, query net url tr = (Ok found, tr ++ [EvGet url []]).
Proof.
  unfold query, bind, requests_get, ret.
  destruct (net _ _ _) as [| |status [data|]]; eauto.
  case_bool_decide; eauto. destruct (first_volume data); eauto.
Qed.

Lemma by_title_trace title author tr :
  exists volume evs,
    by_title repr net title author tr = (Ok volume, tr ++ evs)
    /\ lookups evs = [] /\ (length (requests evs) <= 1)%nat.
Proof.
  unfold by_title. destruct (usable repr title _).
  - unfold bind.
    destruct (query_trace
                (base_url +:+ "?q=" +:+ title_query repr title author +:+ "&maxResults=1")
                tr) as [found ->].
    destruct found as [volume|]; unfold ret.
    + exists volume. eexists [_]. split_and!; [reflexivity|reflexivity|simpl; lia].
    + exists VNone. eexists [_]. split_and!; [reflexivity|reflexivity|simpl; lia].
  - exists VNone, []. rewrite app_nil_r. split_and!; [done|done|simpl; lia].
Qed.

(** A lookup sequence never raises and issues at most two requests. *)
Lemma get_book_info_trace isbn title author tr :
  exists volume evs,
    get_book_info_from_google repr net isbn title author tr = (Ok volume, tr ++ evs)
    /\ lookups evs = [] /\ (length (requests evs) <= 2)%nat.
Proof.
  unfold get_book_info_from_google. destruct (usable repr isbn _).
  - unfold bind.
    destruct (query_trace
                (base_url +:+ "?q=isbn:" +:+ strip (remove_char "-" (py_str repr isbn)))
                tr) as [found ->].
    destruct found as [volume|].
    + unfold ret. exists volume. eexists [_].
      split_and!; [reflexivity|reflexivity|simpl; lia].
    + destruct (by_title_trace title author
                  (tr ++ [EvGet (base_url +:+ "?q=isbn:" +:+
                                 strip (remove_char "-" (py_str repr isbn))) []]))
        as (volume & evs & -> & Hl & Hr).
      exists volume. eexists (_ :: evs). rewrite <- app_assoc.
      split_and!; [reflexivity|done|]. unfold requests in *. simpl. lia.
  - destruct (by_title_trace title author tr) as (volume & evs & -> & Hl & Hr).
    exists volume, evs. split_and!; [done|done|lia].
Qed.

(** A row whose title key is cached is served the cached entry and leaves
    the trace untouched, whatever its other cells. *)
Lemma process_row_hit cols st row tr i :
  cache st !! title_key repr cols row = Some i ->
  process_row repr net cols st row tr =
    (Ok (mkState (cache st) (cache_file st) (new_data st ++ [i])
           (S (rows_processed st))), tr).
Proof. intros H. unfold process_row. by rewrite H. Qed.

Lemma process_row_miss cols st row tr :
  cache st !! title_key repr cols row = None ->
  exists evs res,
    process_row repr net cols st row tr =
      (res, tr ++ EvLookup (title_key repr cols row) :: evs)
    /\ lookups evs = [] /\ (length (requests evs) <= 2)%nat
    /\ match res with
       | Ok st' =>
           exists i, cache st' = <[title_key repr cols row := i]> (cache st)
                     /\ new_data st' = new_data st ++ [i]
       | Raise _ => True
       end.
Proof.
  intros H.
  destruct (get_book_info_trace
              (row_get cols row "api_isbn" (VStr ""))
              (VStr (title_key repr cols row))
              (row_get cols row "api_author" (VStr ""))
              (tr ++ [EvLookup (title_key repr cols row)]))
    as (volume & evs & Hg & Hl & Hr).
  unfold process_row, bind, emit, lift, sleep, ret. rewrite H, Hg.
  destruct (tidy volume) as [i|e].
  - unfold emit. cbn beta iota.
    eexists (evs ++ [EvSleep 500]), _. rewrite <- !app_assoc.
    split_and!; [reflexivity| | |].
    + rewrite lookups_app, Hl. done.
    + rewrite requests_app, length_app. simpl. lia.
    + by exists i.
  - eexists evs, _. rewrite <- !app_assoc. by split_and!.
Qed.

Lemma between_rows_once file cols processed st tr :
  between_rows repr file cols processed st tr -> lookups_once file tr.
Proof.
  intros (H1 & H2 & _ & H4 & _). unfold lookups_once.
  split_and!; [done| |done]. intros k Hk. by destruct (H2 k Hk).
Qed.

Lemma process_row_between file cols processed st row tr :
  between_rows repr file cols processed st tr ->
  lookups_once file (process_row repr net cols st row tr).2
  /\ match (process_row repr net cols st row tr).1 with
     | Ok st' =>
         between_rows repr file cols (processed ++ [row]) st'
           (process_row repr net cols st row tr).2
     | Raise _ => True
     end.
Proof.
  intros Hinv. pose proof Hinv as (Hnd & Hks & Hsub & Hreq & Hserved).
  destruct (cache st !! title_key repr cols row) as [i|] eqn:Hkey.
  - rewrite (process_row_hit _ _ _ _ _ Hkey). simpl.
    split; [by eapply between_rows_once|].
    unfold between_rows. simpl. split_and!; try done.
    apply Forall2_app; [done|]. by repeat constructor.
  - destruct (process_row_miss cols st row tr Hkey)
      as (evs & res & Htr & Hl & Hr & Hres).
    rewrite Htr. cbn [fst snd].
    assert (lookups (tr ++ EvLookup (title_key repr cols row) :: evs) =
            lookups tr ++ [title_key repr cols row]) as Hlk.
    { rewrite lookups_app. simpl. by rewrite Hl. }
    assert (title_key repr cols row ∉ lookups tr) as Hfresh.
    { intros Hin. destruct (Hks _ Hin) as [_ [? Hc]]. congruence. }
    assert (default ∅ file !! title_key repr cols row = None) as Hfile.
    { eapply lookup_weaken_None; eauto. }
    assert (length (requests (tr ++ EvLookup (title_key repr cols row) :: evs))
            <= 2 * length (lookups tr ++ [title_key repr cols row]))%nat as Hbound.
    { rewrite requests_app, !length_app. simpl. lia. }
    assert (NoDup (lookups tr ++ [title_key repr cols row])) as Hnd'.
    { apply NoDup_app. repeat split; [done| |apply NoDup_singleton].
      intros k Hk ->%list_elem_of_singleton. done. }
    split.
    { unfold lookups_once. rewrite Hlk. split_and!; [done| |done].
      intros k [Hk| ->%list_elem_of_singleton]%elem_of_app; [|done].
      by apply Hks. }
    destruct res as [st'|]; [|done].
    destruct Hres as (i & Hc & Hn).
    unfold between_rows. rewrite Hlk, Hc, Hn. split_and!; try done.
    + intros k [Hk| ->%list_elem_of_singleton]%elem_of_app.
      * destruct (Hks _ Hk) as [? [j Hj]]. split; [done|].
        destruct (decide (title_key repr cols row = k)) as [<-|Hne].
        -- rewrite lookup_insert_eq. eauto.
        -- rewrite lookup_insert_ne; eauto.
      * split; [done|]. rewrite lookup_insert_eq. eauto.
    + by apply insert_subseteq_r.
    + apply Forall2_app.
      * eapply Forall2_impl; [exact Hserved|]. intros r j Hj. simpl in *.
        rewrite lookup_insert_ne; [done|]. congruence.
      * repeat constructor. by rewrite lookup_insert_eq.
Qed.

Lemma main_loop_between file cols rows :
  forall processed st tr,
    between_rows repr file cols processed st tr ->
    lookups_once file (main_loop repr net cols st rows tr).2
    /\ match (main_loop repr net cols st rows tr).1 with
       | Ok st' =>
           between_rows repr file cols (processed ++ rows) st'
             (main_loop repr net cols st rows tr).2
       | Raise _ => True
       end.
Proof.
  induction rows as [|row rows IH]; intros processed st tr Hinv.
  - simpl. rewrite app_nil_r. split; [by eapply between_rows_once|done].
  - cbn [main_loop]. unfold bind.
    destruct (process_row_between file cols processed st row tr Hinv)
      as [Honce Hstep].
    destruct (process_row repr net cols st row tr) as [[st'|e] tr']; simpl in *.
    + specialize (IH _ _ _ Hstep). by rewrite <- app_assoc in IH.
    + done.
Qed.

Lemma initial_between file cols :
  between_rows repr file cols [] (initial_state file) [].
Proof.
  unfold between_rows. simpl. split_and!; try done.
  - constructor.
  - intros k Hk. by apply elem_of_nil in Hk.
Qed.

End Lemmas.

(** C7.  In a run of the loop, from an empty or a pre-loaded cache:
    no title key is looked up remotely twice, no pre-loaded key is looked
    up at all, every request belongs to a lookup (at most two each), also
    when the run stops on an exception; and a row whose title key is
    pre-loaded or was borne by an earlier row is served that very entry
    with the trace left as it was, whatever its identifier and author. *)
Theorem cache_idempotence repr net (cols : list string)
    (file : option (gmap string info)) (rows : list (list value)) :
  let run := main_loop repr net cols (initial_state file) rows [] in
  NoDup (lookups run.2)
  /\ (forall k, k ∈ lookups run.2 -> default ∅ file !! k = None)
  /\ (length (requests run.2) <= 2 * length (lookups run.2))%nat
  /\ (forall pre row post st tr i,
        rows = pre ++ row :: post ->
        main_loop repr net cols (initial_state file) pre [] = (Ok st, tr) ->
        default ∅ file !! title_key repr cols row = Some i
        \/ (exists n earlier,
              pre !! n = Some earlier
              /\ title_key repr cols earlier = title_key repr cols row
              /\ new_data st !! n = Some i) ->
        process_row repr net cols st row tr =
          (Ok (mkState (cache st) (cache_file st) (new_data st ++ [i])
                 (S (rows_processed st))), tr)).
Proof.
  intros run.
  destruct (main_loop_between repr net file cols rows [] _ []
              (initial_between repr file cols)) as [(H1 & H2 & H3) _].
  split_and!; [done..|].
  intros pre row post st tr i _ Hpre Hkey.
  destruct (main_loop_between repr net file cols pre [] _ []
              (initial_between repr file cols)) as [_ Hinv].
  rewrite Hpre in Hinv. simpl in Hinv.
  destruct Hinv as (_ & _ & Hsub & _ & Hserved).
  apply process_row_hit.
  destruct Hkey as [Hfile | (n & earlier & Hn & Hsame & Hi)].
  - eapply lookup_weaken; eauto.
  - rewrite <- Hsame. eapply (Forall2_lookup_lr _ _ _ _ _ _ Hserved); eauto.
Qed.

Lemma cache_idempotence_witness :
  let cols := ["Title"; "api_isbn"; "api_author"] in
  let first := [VStr "Dune"; VStr "9780441013593"; VStr "Frank Herbert"] in
  let second := [VStr " Dune "; VInt 0; VStr "Unknown"] in
  exists st tr i,
    main_loop (fun _ => "") title_only_net cols (initial_state None) [first] [] =
      (Ok st, tr)
    /\ new_data st = [i]
    /\ process_row (fun _ => "") title_only_net cols st second tr =
         (Ok (mkState (cache st) (cache_file st) [i; i] 2), tr).
Proof.
  intros cols first second. eexists _, _, _.
  split; [vm_compute; reflexivity|]. split; [reflexivity|].
  match goal with
  | |- process_row _ _ _ ?st _ ?tr = (Ok (mkState _ _ [?i; _] _), _) =>
      refine (proj2 (proj2 (proj2
                (cache_idempotence (fun _ => "") title_only_net cols None
                   [first; second]))) [first] second [] st tr i eq_refl _ _)
  end.
  - vm_compute. reflexivity.
  - right. exists 0%nat, first. split_and!; reflexivity.
Defined.

(** C4, at a book whose identifier query and title-and-author query find
    nothing while the query by title alone would: the function gives up
    after those two requests and returns [None]; the title-only query is
    never sent.  The same network answers the title-only query when no
    author is given. *)
Lemma title_author_miss_not_retried :
  let by_isbn := EvGet (base_url +:+ "?q=isbn:9780441013593") [] in
  let by_title_author :=
    EvGet (base_url +:+ "?q=intitle:Dune+inauthor:Frank Herbert&maxResults=1") [] in
  let by_title_only := EvGet (base_url +:+ "?q=intitle:Dune&maxResults=1") [] in
  get_book_info_from_google (fun _ => "") title_only_net
    (VStr "978-0441013593") (VStr "Dune") (VStr "Frank Herbert") [] =
    (Ok VNone, [by_isbn; by_title_author])
  /\ get_book_info_from_google (fun _ => "") title_only_net
       VNone (VStr "Dune") (VStr "") [] =
     (Ok dune_volume, [by_title_only]).
Proof. split; vm_compute; reflexivity. Qed.

(** C8, on [cadence_rows]: the file is written once, at row 0; row 50 is a
    cache hit, so nothing is written there, and after row 52 the cache holds
    51 entries that the file does not. *)
Lemma cadence_unflushed_exceeds_fifty :
  let run :=
    main_loop (fun _ => "") (fun _ _ _ => no_items) ["Title"]
      (initial_state None) cadence_rows [] in
  exists st,
    run.1 = Ok st
    /\ length cadence_rows = 53%nat
    /\ rows_processed st = 53%nat
    /\ size (cache st) = 52%nat
    /\ size (default ∅ (cache_file st)) = 1%nat
    /\ unflushed st = 51%nat.
Proof.
  eexists. split; [vm_compute; reflexivity|].
  split_and!; vm_compute; reflexivity.
Qed.

End GoogleProps.

(** ** Frames *)

Module PandasProps.
Import Py Pandas Notions.

Lemma not_elem_of_list (x : string) (l : list string) :
  bool_decide (x ∈ l) = false -> x ∉ l.
Proof. intros H Hin. by rewrite bool_decide_eq_true_2 in H. Qed.

Lemma lookup_map {A B} (f : A -> B) (l : list A) (i : nat) :
  map f l !! i = f <$> l !! i.
Proof. revert i. induction l; intros [|i]; simpl; auto. Qed.

Lemma elem_of_map {A B} (f : A -> B) (l : list A) (y : B) :
  y ∈ map f l <-> exists x, y = f x /\ x ∈ l.
Proof.
  rewrite list_elem_of_In, in_map_iff. split.
  - intros (x & <- & Hx). exists x. by rewrite list_elem_of_In.
  - intros (x & -> & Hx). exists x. by rewrite <- list_elem_of_In.
Qed.


(** *** Filling *)

Lemma zip_with_same {A B} (f : A -> B -> B) (l : list A) (k : list B) :
  length k = length l ->
  (forall x y, x ∈ l -> f x y = y) ->
  zip_with f l k = k.
Proof.
  revert k. induction l as [|x l IH]; intros [|y k] Hlen Hf; try done.
  simpl in *. rewrite Hf by (by left). f_equal. apply IH; [lia|].
  intros. apply Hf. by right.
Qed.

Lemma zip_with_twice {A B} (f g : A -> B -> B) (l : list A) (k : list B) :
  zip_with f l (zip_with g l k) = zip_with (fun x y => f x (g x y)) l k.
Proof. revert k. induction l as [|x l IH]; intros [|y k]; simpl; by f_equal. Qed.

Lemma length_zip_with_same {A B} (f : A -> B -> B) (l : list A) (k : list B) :
  length k = length l -> length (zip_with f l k) = length l.
Proof. revert k. induction l; intros [|y k]; simpl; auto with lia. Qed.

Lemma fill_step_columns df cv : columns (fill_step df cv) = columns df.
Proof. unfold fill_step. by case_bool_decide. Qed.

Lemma fill_step_rows df col val :
  rectangular df ->
  rows (fill_step df (col, val)) =
    map (zip_with (fun c v => if String.eqb c col && is_null v then val else v)
           (columns df)) (rows df).
Proof.
  intros Hrect. unfold fill_step. simpl. case_bool_decide as Hcol; [done|].
  symmetry. rewrite <- (map_id (rows df)) at 2. apply map_ext_Forall.
  eapply Forall_impl; [exact Hrect|]. intros r Hr. simpl in *.
  apply zip_with_same; [done|]. intros c v Hc.
  destruct (String.eqb_spec c col) as [->|]; done.
Qed.

Lemma fill_step_rectangular df cv :
  rectangular df -> rectangular (fill_step df cv).
Proof.
  intros Hrect. destruct cv as [col val]. unfold rectangular.
  rewrite fill_step_columns, fill_step_rows by done.
  apply Forall_forall. intros r (r0 & -> & Hr0)%elem_of_map.
  apply length_zip_with_same.
  by eapply (proj1 (Forall_forall _ _) Hrect).
Qed.

(** The loop in closed form: a missing cell gets the value the dict holds
    for its column label, every other cell is kept. *)
Lemma fill_fold (defaults : dict) :
  Forall (fun cv => is_null cv.2 = false) defaults ->
  forall df, rectangular df ->
    columns (foldl fill_step df defaults) = columns df
    /\ rectangular (foldl fill_step df defaults)
    /\ rows (foldl fill_step df defaults) =
         map (zip_with (fill_with defaults) (columns df)) (rows df).
Proof.
  induction 1 as [|[col val] defaults Hval _ IH]; intros df Hrect.
  - simpl. split_and!; [done..|].
    rewrite <- (map_id (rows df)) at 1. apply map_ext_Forall.
    eapply Forall_impl; [exact Hrect|]. intros r Hr. simpl in *.
    symmetry. apply zip_with_same; [done|]. intros c v _.
    unfold fill_with. by destruct (is_null v).
  - cbn [foldl].
    destruct (IH _ (fill_step_rectangular df (col, val) Hrect))
      as (Hcols & Hrect' & Hrows).
    rewrite Hcols, Hrows, fill_step_columns, fill_step_rows by done.
    split_and!; [done..|]. rewrite map_map. apply map_ext. intros r.
    rewrite zip_with_twice. apply zip_with_ext; [|done..].
    intros c v. unfold fill_with. simpl in *.
    rewrite (String.eqb_sym col c).
    destruct (String.eqb c col), (is_null v) eqn:Hv; simpl; rewrite ?Hv, ?Hval; done.
Qed.

(** *** Dropping a column *)

Lemma select_length {A B} (mask : list bool) (l : list A) (k : list B) :
  length l = length mask -> length k = length mask ->
  length (select mask l) = length (select mask k).
Proof.
  revert l k. induction mask as [|b mask IH]; intros [|x l] [|y k] Hl Hk;
    try done.
  simpl in *. destruct b; simpl; auto with lia.
Qed.

Lemma elem_of_select_map (f : string -> bool) (l : list string) c :
  c ∈ select (map f l) l <-> c ∈ l /\ f c = true.
Proof.
  induction l as [|x l IH]; simpl.
  - split; [by intros ?%elem_of_nil|by intros [?%elem_of_nil _]].
  - destruct (f x) eqn:Hx; rewrite ?elem_of_cons, IH.
    + split; [intros [->|[? ?]]|intros [[->|?] ?]]; auto.
    + split; [intros [? ?]|intros [[->|?] ?]]; auto. congruence.
Qed.

Lemma elem_of_drop_columns label df c :
  c ∈ columns (drop label df) <-> c ∈ columns df /\ c <> label.
Proof.
  unfold drop. simpl. rewrite elem_of_select_map.
  destruct (String.eqb_spec c label); simpl; split; intros [? ?]; done.
Qed.

Lemma drop_rectangular label df : rectangular df -> rectangular (drop label df).
Proof.
  intros Hrect. unfold rectangular, drop. simpl.
  apply Forall_forall. intros r (r0 & -> & Hr0)%elem_of_map.
  apply select_length; rewrite length_map; [|done].
  by eapply (proj1 (Forall_forall _ _) Hrect).
Qed.

Lemma drop_rows_length label df : length (rows (drop label df)) = length (rows df).
Proof. unfold drop. simpl. by rewrite length_map. Qed.

Lemma select_sublist {A} (mask : list bool) (l : list A) :
  select mask l `sublist_of` l.
Proof.
  revert l. induction mask as [|b mask IH]; intros [|x l]; simpl;
    try apply sublist_nil_l.
  destruct b; [by apply sublist_skip|by apply sublist_cons].
Qed.



(** *** Suffixes *)

Lemma map_as_fmap {A B} (f : A -> B) (l : list A) : map f l = f <$> l.
Proof. induction l; simpl; by f_equal. Qed.

Lemma duplicated_NoDup (seen l : list string) :
  NoDup l -> (forall x, x ∈ l -> x ∉ seen) ->
  Forall (fun d => d = false) (duplicated seen l).
Proof.
  revert seen. induction l as [|x l IH]; intros seen Hnd Hseen; [constructor|].
  apply NoDup_cons in Hnd as [Hx Hnd]. simpl. constructor.
  - apply bool_decide_eq_false_2, Hseen. by left.
  - apply IH; [done|]. intros y Hy [->|Hin]%elem_of_cons; [done|].
    apply (Hseen y); [by right|done].
Qed.

Lemma existsb_zip_false (ds ds0 : list bool) :
  Forall (fun d => d = false) ds ->
  existsb id (zip_with (fun d d0 => d && negb d0) ds ds0) = false.
Proof.
  intros H. revert ds0. induction H as [|d ds -> _ IH]; intros [|d0 ds0];
    simpl; auto.
Qed.

(** Distinct right labels that the suffix keeps distinct, and that never
    become a left label, pass the check of the suffixes. *)
Lemma no_suffix_duplicates (L R : list string) (suffix : string) :
  NoDup R ->
  (forall r1 r2, r1 ∈ R -> r2 ∈ R ->
     r1 +:+ suffix <> r2 /\ (r1 +:+ suffix = r2 +:+ suffix -> r1 = r2)) ->
  (forall a, a ∈ R -> a ∈ L -> a +:+ suffix ∉ L) ->
  suffix_duplicates L R
    (map (fun c => if bool_decide (c ∈ L) then c +:+ suffix else c) R) = false.
Proof.
  intros Hnd Hinj Hclash. unfold suffix_duplicates.
  apply orb_false_iff. split.
  - apply existsb_zip_false, duplicated_NoDup; [|by intros x _ ?%elem_of_nil].
    rewrite map_as_fmap. apply NoDup_fmap_2_strong; [|done].
    intros r1 r2 H1 H2. destruct (Hinj r1 r2 H1 H2) as [Hne Heq].
    destruct (Hinj r2 r1 H2 H1) as [Hne' _].
    repeat case_bool_decide; try done; congruence.
  - apply not_true_iff_false. intros (c & Hc & HcL)%existsb_exists.
    apply in_map_iff in Hc as (r & <- & Hr%list_elem_of_In).
    apply bool_decide_eq_true in HcL.
    case_bool_decide as HrL; [|done]. by apply (Hclash r).
Qed.

(** *** Keys *)

Lemma keys_of_str (l : list value) :
  Forall (fun v => text_or_null v = true) l ->
  exists ks, keys_of l = Ok ks /\ Forall2 (fun v k => key_of v = Some k) l ks.
Proof.
  induction 1 as [|v l Hv _ (ks & Hks & Hall)].
  - exists []. split; [done|constructor].
  - simpl. destruct v; try done; simpl; rewrite Hks; simpl;
      eexists; (split; [reflexivity|]); by constructor.
Qed.

Lemma is_str_text v : is_str v = true -> text_or_null v = true.
Proof. by destruct v. Qed.

Lemma dropna_str (l : list value) :
  Forall (fun v => text_or_null v = true) l ->
  Forall (fun v => is_str v = true) (dropna l).
Proof.
  intros H. apply Forall_forall. intros v [Hnull Hv]%list_elem_of_filter.
  pose proof (proj1 (Forall_forall _ _) H v Hv). by destruct v.
Qed.

Lemma dropna_nonempty (l : list value) :
  existsb (fun v => negb (is_null v)) l = true -> dropna l <> [].
Proof.
  intros (v & Hv & Hnn)%existsb_exists Hnil.
  assert (v ∈ dropna l) as Hin.
  { apply list_elem_of_filter. split; [by destruct (is_null v)|].
    by apply list_elem_of_In. }
  rewrite Hnil in Hin. by apply elem_of_nil in Hin.
Qed.

(** [unique] on text: the first occurrences, pairwise different, none of
    them seen before. *)
Lemma unique_go_str (l : list value) :
  Forall (fun v => is_str v = true) l ->
  forall seen, exists u,
    unique_go seen l = Ok u
    /\ Forall (fun v => is_str v = true) u
    /\ NoDup u
    /\ (forall v, v ∈ u -> v ∈ l /\ key_of v ∉ Some <$> seen)
    /\ (forall v, v ∈ l -> key_of v ∉ Some <$> seen -> v ∈ u).
Proof.
  induction 1 as [|x l Hx Hl IH]; intros seen.
  - exists []. split_and!; [done|constructor|constructor| |].
    + by intros w ?%elem_of_nil.
    + by intros w ?%elem_of_nil.
  - destruct x as [| | | |s| |]; try done. cbn [unique_go key_of].
    case_bool_decide as Hseen.
    + destruct (IH seen) as (u & -> & Hstr & Hnd & Hsub & Hsup).
      exists u. split_and!; try done.
      * intros w Hin. destruct (Hsub w Hin). split; [by right|done].
      * intros w [->|Hin]%elem_of_cons Hk; [|by apply Hsup].
        exfalso. apply Hk. simpl. by apply list_elem_of_fmap_2.
    + destruct (IH (KStr s :: seen)) as (u & -> & Hstr & Hnd & Hsub & Hsup).
      exists (VStr s :: u). simpl. split_and!; try done.
      * by constructor.
      * constructor; [|done]. intros Hin. destruct (Hsub _ Hin) as [_ Hk].
        apply Hk. simpl. by left.
      * intros w [->|Hin]%elem_of_cons.
        -- split; [by left|]. simpl.
           intros (k & [= <-] & Hin)%list_elem_of_fmap. done.
        -- destruct (Hsub w Hin) as [? Hk]. split; [by right|].
           intros Hk'. apply Hk. rewrite fmap_cons. by right.
      * intros w [->|Hin]%elem_of_cons Hk; [by left|].
        pose proof (proj1 (Forall_forall _ _) Hl w Hin) as Hs.
        destruct w as [| | | |s'| |]; try done.
        destruct (decide (s' = s)) as [->|Hne]; [by left|]. right.
        apply Hsup; [done|]. rewrite fmap_cons.
        intros [Heq|Hin']%elem_of_cons; [|done].
        simpl in Heq. congruence.
Qed.

(** *** The enrichment table *)

Lemma dict_get_app_fresh (d : dict) k v :
  k ∉ keys d -> dict_get (d ++ [(k, v)]) k = Some v.
Proof.
  induction d as [|[k' v'] d IH]; simpl; intros Hk.
  - by rewrite String.eqb_refl.
  - destruct (String.eqb_spec k' k) as [->|Hne].
    + exfalso. apply Hk. by left.
    + apply IH. intros Hin. apply Hk. by right.
Qed.

Lemma entry_keys title d : entry_of title d -> keys d = record_columns.
Proof.
  intros (record & Hkeys & ->). unfold keys in *. rewrite map_app, Hkeys. done.
Qed.

Lemma entry_title title d :
  entry_of title d -> dict_get d "original_title" = Some title.
Proof.
  intros (record & Hkeys & ->). apply dict_get_app_fresh.
  rewrite Hkeys. by apply not_elem_of_list.
Qed.

Lemma filter_not_in_nil (l : list string) :
  filter (fun k => k ∉ @nil string) l = l.
Proof.
  induction l as [|x l IH]; [done|].
  rewrite filter_cons_True; [by rewrite IH|]. by intros ?%elem_of_nil.
Qed.

Lemma filter_not_in_self (K l : list string) :
  (forall k, k ∈ l -> k ∈ K) -> filter (fun k => k ∉ K) l = [].
Proof.
  induction l as [|x l IH]; intros Hsub; [done|].
  rewrite filter_cons_False.
  - apply IH. intros k Hk. apply Hsub. by right.
  - intros Hx. apply Hx, Hsub. by left.
Qed.

Lemma union_keys_same (K : list string) (ds : list dict) :
  ds <> [] -> Forall (fun d => keys d = K) ds -> union_keys ds = K.
Proof.
  intros Hne Hall. unfold union_keys.
  destruct Hall as [|d ds Hd Hds]; [done|]. cbn [foldl].
  rewrite Hd, filter_not_in_nil. simpl. clear Hne Hd d.
  induction Hds as [|d ds Hd _ IH]; [done|]. cbn [foldl].
  rewrite Hd, filter_not_in_self by done. by rewrite app_nil_r.
Qed.

Lemma from_records_entries (titles : list value) (ds : list dict) :
  Forall2 entry_of titles ds -> ds <> [] ->
  columns (from_records ds) = record_columns
  /\ rectangular (from_records ds)
  /\ length (rows (from_records ds)) = length titles
  /\ column (from_records ds) "original_title" = Ok titles.
Proof.
  intros Hent Hne.
  assert (union_keys ds = record_columns) as Hcols.
  { apply union_keys_same; [done|]. clear Hne.
    induction Hent as [|t d titles ds Ht _ IH]; constructor; [|done].
    by eapply entry_keys. }
  unfold from_records. rewrite Hcols. simpl. split_and!.
  - done.
  - apply Forall_forall. intros r (d & -> & _)%elem_of_map.
    reflexivity.
  - rewrite length_map. symmetry. by eapply Forall2_length.
  - unfold column, col_index. simpl. f_equal.
    rewrite map_map. clear Hne Hcols.
    induction Hent as [|t d titles ds Ht _ IH]; [done|].
    rewrite map_cons. f_equal; [|exact IH].
    simpl. by rewrite (entry_title t d Ht).
Qed.

(** *** The left join *)

Lemma filter_key_None (keyed : list (key * list value)) (k : key) :
  k ∉ map fst keyed -> filter (fun kr => kr.1 = k) keyed = [].
Proof.
  induction keyed as [|[k0 r0] keyed IH]; intros Hk; [done|].
  rewrite filter_cons_False.
  - apply IH. intros Hin. apply Hk. by right.
  - simpl. intros ->. apply Hk. by left.
Qed.

(** With at most one right row per key a left row is never duplicated. *)
Lemma join_row_single (keyed : list (key * list value)) pad lk l :
  NoDup (map fst keyed) ->
  exists e, join_row keyed pad lk l = [l ++ e]
            /\ (e = pad \/ exists k, (k, e) ∈ keyed).
Proof.
  intros Hnd. unfold join_row.
  induction keyed as [|[k0 r0] keyed IH].
  - exists pad. split; [done|by left].
  - simpl in Hnd. apply NoDup_cons in Hnd as [Hk0 Hnd].
    destruct (decide (k0 = lk)) as [->|Hne].
    + rewrite filter_cons_True by done.
      rewrite filter_key_None by done. simpl.
      exists r0. split; [done|]. right. exists lk. by left.
    + rewrite filter_cons_False by done.
      destruct (IH Hnd) as (e & -> & He). exists e. split; [done|].
      destruct He as [->|(k & Hin)]; [by left|]. right. exists k. by right.
Qed.

Lemma zip_with_join_single (keyed : list (key * list value)) pad
    (lkeys : list key) (lrows : list (list value)) :
  NoDup (map fst keyed) -> length lkeys = length lrows ->
  Forall2 (fun l r => exists e, r = l ++ e /\ (e = pad \/ exists k, (k, e) ∈ keyed))
    lrows (concat (zip_with (join_row keyed pad) lkeys lrows)).
Proof.
  intros Hnd. revert lrows.
  induction lkeys as [|lk lkeys IH]; intros [|l lrows] Hlen; try done.
  destruct (join_row_single keyed pad lk l Hnd) as (e & Heq & He).
    change (concat (zip_with (join_row keyed pad) (lk :: lkeys) (l :: lrows)))
      with (join_row keyed pad lk l
            ++ concat (zip_with (join_row keyed pad) lkeys lrows)).
    rewrite Heq. cbn [app].
    constructor; [by exists e|]. apply IH. simpl in Hlen. lia.
Qed.

(** Whatever the right keys, a left row yields rows that extend it. *)
Lemma join_row_extends (keyed : list (key * list value)) pad lk l r :
  r ∈ join_row keyed pad lk l ->
  exists e, r = l ++ e /\ (e = pad \/ exists k, (k, e) ∈ keyed).
Proof.
  unfold join_row.
  destruct (filter _ keyed) as [|kr ms] eqn:Hf.
  - intros ->%list_elem_of_singleton. exists pad. split; [done|by left].
  - intros ([k e] & -> & Hin)%elem_of_map. exists e. split; [done|]. right.
    exists k. rewrite <- Hf in Hin. by apply list_elem_of_filter in Hin as [_ ?].
Qed.

Lemma zip_with_join_extends (keyed : list (key * list value)) pad
    (lkeys : list key) (lrows : list (list value)) r :
  r ∈ concat (zip_with (join_row keyed pad) lkeys lrows) ->
  exists l e, l ∈ lrows /\ r = l ++ e /\ (e = pad \/ exists k, (k, e) ∈ keyed).
Proof.
  revert lrows. induction lkeys as [|lk lkeys IH]; intros [|l lrows];
    try by intros ?%elem_of_nil.
  change (concat (zip_with (join_row keyed pad) (lk :: lkeys) (l :: lrows)))
    with (join_row keyed pad lk l
          ++ concat (zip_with (join_row keyed pad) lkeys lrows)).
  intros [Hin|Hin]%elem_of_app.
  - destruct (join_row_extends _ _ _ _ _ Hin) as (e & -> & He).
    exists l, e. split; [by left|done].
  - destruct (IH _ Hin) as (l' & e & Hl' & -> & He).
    exists l', e. split; [by right|done].
Qed.

Lemma column_length df c cells :
  column df c = Ok cells -> length cells = length (rows df) /\ c ∈ columns df.
Proof.
  unfold column, col_index. destruct (list_find _ _) as [[i x]|] eqn:Hf; [|done].
  simpl. intros [= <-]. rewrite length_map. split; [done|].
  apply list_find_Some in Hf as (Hi & -> & _). by eapply list_elem_of_lookup_2.
Qed.

Lemma column_Ok df c : c ∈ columns df -> exists cells, column df c = Ok cells.
Proof.
  intros Hc. unfold column, col_index.
  destruct (list_find _ _) as [[i x]|] eqn:Hf; [by eexists|].
  exfalso. apply list_find_None in Hf.
  by apply (proj1 (Forall_forall _ _) Hf c Hc).
Qed.

Lemma keys_of_length l ks : keys_of l = Ok ks -> length ks = length l.
Proof.
  revert ks. induction l as [|v l IH]; intros ks; simpl; [by intros [= <-]|].
  destruct (key_of v); [|done]. destruct (keys_of l); [|done]. simpl.
  intros [= <-]. simpl. f_equal. by apply IH.
Qed.

End PandasProps.

(** ** Enrichment of a dataset: [enrich_dataset_with_api] *)

Module EnrichProps.
Import Py Pandas Effects ApiEnrichment Notions TraceProps PandasProps.

Section Lemmas.

Variable repr : value -> string.
Variable net : nat -> string -> dict -> outcome.
Variable permutation : nat -> list nat.

(** *** Records *)

Lemma found_record_keys book record :
  found_record repr book = Ok record -> keys record = enrichment_attributes.
Proof.
  unfold found_record. intros H.
  repeat match type of H with
         | rbind ?x _ = Ok _ => destruct x; simpl in H; [|done]
         end.
  by injection H as <-.
Qed.

Lemma on_success_keys data record :
  on_success repr data = Ok record -> keys record = enrichment_attributes.
Proof.
  unfold on_success. intros H.
  repeat match type of H with
         | rbind ?x _ = Ok _ => destruct x; simpl in H; [|done]
         | (if ?b then _ else _) = Ok _ => destruct b
         end.
  - by eapply found_record_keys.
  - by injection H as <-.
Qed.

(** With a textual title the retry loop always returns a record. *)
Lemma attempts_text (s : string) clean_title max_retries todo :
  forall tr, exists record tr',
    attempts repr net (VStr s) clean_title max_retries todo tr = (Ok record, tr')
    /\ keys record = enrichment_attributes.
Proof.
  induction todo as [|a todo IH]; intros tr.
  - by eexists _, _.
  - cbn [attempts]. unfold bind at 1, requests_get.
    destruct (net _ _ _) as [| |status body].
    + case_bool_decide; unfold bind, sleep, emit, ret; apply IH.
    + unfold bind, on_exception, lift, log_message, emit. simpl. apply IH.
    + case_bool_decide; [|apply IH].
      destruct body as [data|].
      * destruct (on_success repr data) as [record|e] eqn:Hs.
        -- eexists _, _. split; [reflexivity|]. by eapply on_success_keys.
        -- unfold bind, on_exception, lift, log_message, emit. simpl. apply IH.
      * unfold bind, on_exception, lift, log_message, emit. simpl. apply IH.
Qed.

Lemma search_text title max_retries tr :
  is_str title = true ->
  exists record tr',
    search_book_by_title repr net title max_retries tr = (Ok record, tr')
    /\ keys record = enrichment_attributes.
Proof.
  intros Ht. unfold search_book_by_title.
  destruct (negb _ || _) eqn:Hblank; [by eexists _, _|].
  destruct title; try done. apply attempts_text.
Qed.

Lemma dict_set_fresh (d : dict) k v :
  k ∉ keys d -> dict_set d k v = d ++ [(k, v)].
Proof.
  induction d as [|[k' v'] d IH]; intros Hk; [done|]. simpl in *.
  destruct (String.eqb_spec k' k) as [->|Hne].
  - exfalso. apply Hk. by left.
  - rewrite IH; [done|]. intros Hin. apply Hk. by right.
Qed.

Lemma process_titles_text delay total titles :
  Forall (fun t => is_str t = true) titles ->
  forall idx tr, exists ds tr',
    process_titles repr net delay total idx titles tr = (Ok ds, tr')
    /\ Forall2 entry_of titles ds.
Proof.
  induction 1 as [|title titles Ht _ IH]; intros idx tr.
  - eexists _, _. split; [reflexivity|constructor].
  - cbn [process_titles]. unfold bind at 1.
    assert (exists tr1,
             (if (Nat.eqb (idx mod 5) 0 || Nat.eqb idx 1 || Nat.eqb idx total)
              then log_message INFO else ret ()) tr = (Ok (), tr1)) as [tr1 ->].
    { destruct (_ || _); by eexists. }
    unfold bind at 1.
    destruct (search_text title 3 tr1 Ht) as (record & tr2 & -> & Hkeys).
    unfold bind at 1, sleep, emit. unfold bind.
    destruct (IH (S idx) (tr2 ++ [EvSleep delay])) as (ds & tr3 & -> & Hds).
    eexists _, _. split; [reflexivity|]. constructor; [|done].
    exists record. split; [done|]. apply dict_set_fresh.
    rewrite Hkeys. unfold enrichment_attributes. apply not_elem_of_list. done.
Qed.

(** *** Sampling *)

Lemma map_fmap {A B} (f : A -> B) (l : list A) : map f l = f <$> l.
Proof. induction l; simpl; by f_equal. Qed.

Lemma random_choice_str (u : list value) (n : nat) :
  permutation_ok permutation ->
  Forall (fun v => is_str v = true) u -> NoDup u ->
  (0 < n < length u)%nat ->
  Forall (fun v => is_str v = true) (random_choice permutation u n)
  /\ NoDup (random_choice permutation u n)
  /\ random_choice permutation u n <> [].
Proof.
  intros Hperm Hstr Hnd Hn. unfold random_choice.
  specialize (Hperm (length u)).
  assert (forall i, i ∈ take n (permutation (length u)) -> (i < length u)%nat)
    as Hlt.
  { intros i Hi. apply elem_of_take in Hi as (j & Hj & _).
    apply list_elem_of_lookup_2 in Hj. rewrite Hperm in Hj.
    apply elem_of_seq in Hj. lia. }
  split_and!.
  - apply Forall_forall. intros v (i & -> & Hi)%elem_of_map.
    destruct (lookup_lt_is_Some_2 u i (Hlt i Hi)) as [x Hx]. rewrite Hx. simpl.
    eapply (proj1 (Forall_forall _ _) Hstr). by eapply list_elem_of_lookup_2.
  - rewrite map_fmap. apply NoDup_fmap_2_strong.
    + intros i j Hi Hj Heq.
      destruct (lookup_lt_is_Some_2 u i (Hlt i Hi)) as [x Hx].
      destruct (lookup_lt_is_Some_2 u j (Hlt j Hj)) as [y Hy].
      rewrite Hx, Hy in Heq. simpl in Heq. subst y.
      by eapply NoDup_lookup.
    + eapply sublist_NoDup; [|apply sublist_take].
      rewrite Hperm. apply NoDup_seq.
  - intros Hnil. apply (f_equal length) in Hnil.
    rewrite length_map, length_take in Hnil. rewrite Hperm, length_seq in Hnil.
    simpl in Hnil. lia.
Qed.

(** *** The run up to the merge *)

Lemma bind_log {A} lvl (k : unit -> M A) tr :
  bind (log_message lvl) k tr = k tt (tr ++ [EvLog lvl]).
Proof. reflexivity. Qed.

Lemma bind_lift_Ok {A B} (x : A) (k : A -> M B) tr : bind (lift (Ok x)) k tr = k x tr.
Proof. reflexivity. Qed.

Lemma bind_ret {A B} (x : A) (k : A -> M B) tr : bind (ret x) k tr = k x tr.
Proof. reflexivity. Qed.

(** The titles that get processed. *)
Lemma titles_to_process df title_column (sample_size : option nat) cells :
  permutation_ok permutation ->
  column df title_column = Ok cells ->
  Forall (fun v => text_or_null v = true) cells ->
  exists u titles,
    unique (dropna cells) = Ok u
    /\ titles =
         match sample_size with
         | Some (S n) =>
             if Nat.ltb (S n) (length u) then random_choice permutation u (S n)
             else u
         | _ => u
         end
    /\ Forall (fun v => is_str v = true) titles
    /\ NoDup titles
    /\ (existsb (fun v => negb (is_null v)) cells = true -> titles <> [])
    /\ (existsb (fun v => negb (is_null v)) cells = false -> titles = []).
Proof.
  intros Hperm Hcol Htext.
  destruct (unique_go_str _ (dropna_str _ Htext) []) as (u & Hu & Hstr & Hnd & Hsub & Hsup).
  assert (existsb (fun v => negb (is_null v)) cells = true -> u <> []) as Hne.
  { intros Hex Hnil. pose proof (dropna_nonempty _ Hex) as Hd.
    destruct (dropna cells) as [|v l] eqn:Hl; [done|].
    assert (v ∈ u) as Hv.
    { apply Hsup; [by left|]. simpl. by intros ?%elem_of_nil. }
    rewrite Hnil in Hv. by apply elem_of_nil in Hv. }
  assert (existsb (fun v => negb (is_null v)) cells = false -> u = []) as Hempty.
  { intros Hex. destruct u as [|v u]; [done|]. exfalso.
    destruct (Hsub v) as [Hv _]; [by left|].
    apply list_elem_of_filter in Hv as [Hnn Hv].
    assert (existsb (fun v => negb (is_null v)) cells = true); [|congruence].
    apply existsb_exists. exists v. split; [by apply list_elem_of_In|].
    by rewrite Hnn. }
  exists u. eexists. split; [exact Hu|]. split; [reflexivity|].
  destruct sample_size as [[|n]|]; try by split_and!.
  destruct (Nat.ltb_spec (S n) (length u)) as [Hlt|Hge]; [|by split_and!].
  destruct (random_choice_str u (S n) Hperm Hstr Hnd) as (H1 & H2 & H3); [lia|].
  split_and!; [done..|].
  intros Hex. rewrite (Hempty Hex) in Hlt. simpl in Hlt. lia.
Qed.

(** The run of [enrich_dataset_with_api] on a dataset, up to the merge:
    the titles processed are distinct texts, the enrichment table holds one
    entry per title, and the result is the merge, the drop and the filling
    of that table. *)
Lemma enrich_run df title_column sample_size delay tr :
  dataset df title_column = true ->
  permutation_ok permutation ->
  exists titles enriched_data tr',
    Forall (fun v => is_str v = true) titles
    /\ NoDup titles
    /\ (some_title df title_column = true -> titles <> [])
    /\ (some_title df title_column = false -> titles = [])
    /\ Forall2 entry_of titles enriched_data
    /\ enrich_dataset_with_api repr net permutation df title_column
         sample_size delay tr =
       (let* merged :=
          merge_left df (from_records enriched_data) title_column
            "original_title" "_api_dup" in
        Ok (fill_defaults
              (if bool_decide ("original_title" ∈ columns merged)
               then drop "original_title" merged else merged)),
        tr').
Proof.
  intros Hds Hperm. unfold dataset in Hds.
  apply andb_true_iff in Hds as [Hds Htext].
  destruct (column df title_column) as [cells|] eqn:Hcol; [|done].
  assert (Forall (fun v => text_or_null v = true) cells) as Htext'.
  { apply Forall_forall. intros v Hv.
    by apply (proj1 (forallb_forall _ _) Htext), list_elem_of_In. }
  destruct (column_length _ _ _ Hcol) as [_ Htc].
  destruct (titles_to_process df title_column sample_size cells Hperm Hcol Htext')
    as (u & titles & Hu & Htitles & Hstr & Hnd & Hne & Hempty).
  unfold enrich_dataset_with_api. rewrite !bind_log.
  rewrite bool_decide_eq_true_2 by done. cbn [negb].
  rewrite Hcol, bind_lift_Ok, Hu, bind_lift_Ok.
  assert (forall (k : list value -> M DataFrame) tr0,
            bind
              match sample_size with
              | Some (S n) =>
                  if Nat.ltb (S n) (length u)
                  then log_message INFO;; ret (random_choice permutation u (S n))
                  else log_message INFO;; ret u
              | _ => log_message INFO;; ret u
              end k tr0 = k titles (tr0 ++ [EvLog INFO])) as Hsel.
  { intros k tr0. subst titles.
    destruct sample_size as [[|n]|]; try reflexivity.
    by destruct (Nat.ltb (S n) (length u)). }
  rewrite Hsel, bind_log. unfold bind at 1.
  match goal with
  | |- context [process_titles _ _ _ _ _ _ ?t] =>
      destruct (process_titles_text delay (length titles) titles Hstr 1%nat t)
        as (ds & tr2 & -> & Hent)
  end.
  rewrite bind_log.
  unfold some_title. rewrite Hcol.
  destruct (merge_left df (from_records ds) title_column "original_title" "_api_dup")
    as [merged|e] eqn:Hmerge.
  - rewrite bind_lift_Ok, bind_log. unfold ret.
    eexists titles, ds, _. rewrite Hmerge. by split_and!.
  - eexists titles, ds, _. rewrite Hmerge. by split_and!.
Qed.

(** *** The merge *)

Lemma keys_of_strs (titles : list value) :
  Forall (fun v => is_str v = true) titles ->
  keys_of titles = Ok (map (fun v => default KNull (key_of v)) titles).
Proof.
  induction 1 as [|v titles Hv _ IH]; [done|].
  destruct v; try done. simpl. by rewrite IH.
Qed.

Lemma NoDup_str_keys (titles : list value) :
  Forall (fun v => is_str v = true) titles -> NoDup titles ->
  NoDup (map (fun v => default KNull (key_of v)) titles).
Proof.
  intros Hstr Hnd. rewrite map_fmap. apply NoDup_fmap_2_strong; [|done].
  intros v w Hv Hw Heq.
  pose proof (proj1 (Forall_forall _ _) Hstr v Hv).
  pose proof (proj1 (Forall_forall _ _) Hstr w Hw).
  destruct v, w; try done. simpl in Heq. congruence.
Qed.

Lemma elem_of_zip {A B} (a : list A) (b : list B) x y :
  (x, y) ∈ zip a b -> x ∈ a /\ y ∈ b.
Proof.
  revert b. induction a as [|x0 a IH]; intros [|y0 b]; simpl;
    try by intros ?%elem_of_nil.
  intros [[= -> ->]|Hin]%elem_of_cons.
  - split; by left.
  - destruct (IH _ Hin). split; by right.
Qed.

Lemma NoDup_zip_fst {A B} (a : list A) (b : list B) :
  NoDup a -> NoDup (map fst (zip a b)).
Proof.
  revert b. induction a as [|x a IH]; intros [|y b] Hnd; simpl;
    try apply NoDup_nil_2.
  apply NoDup_cons in Hnd as [Hx Hnd]. apply NoDup_cons. split; [|by apply IH].
  intros ([x' y'] & Heq & Hin)%elem_of_map. simpl in Heq. subst x'.
  by destruct (elem_of_zip _ _ _ _ Hin).
Qed.


Lemma default_values :
  Forall (fun cv : string * value => is_null cv.2 = false) (get_default_data false).
Proof. repeat constructor. Qed.

(** On a dataset, with a non-empty table of one entry per distinct title,
    the merge succeeds, yields one row per input row, in order, each input
    row extended by cells of the table, and has every declared attribute
    among its columns. *)
Lemma record_labels_suffix :
  Forall (fun r1 =>
            Forall (fun r2 =>
                      r1 +:+ "_api_dup" <> r2
                      /\ (r1 +:+ "_api_dup" = r2 +:+ "_api_dup" -> r1 = r2))
              record_columns)
    record_columns.
Proof. apply (bool_decide_unpack _). vm_compute. exact I. Qed.

Lemma record_columns_NoDup : NoDup record_columns.
Proof. apply (bool_decide_unpack _). vm_compute. exact I. Qed.

Lemma merge_entries df title_column titles enriched_data :
  dataset df title_column = true ->
  no_suffix_clash df = true ->
  Forall (fun v => is_str v = true) titles -> NoDup titles ->
  Forall2 entry_of titles enriched_data -> titles <> [] ->
  exists merged,
    merge_left df (from_records enriched_data) title_column
      "original_title" "_api_dup" = Ok merged
    /\ rectangular merged
    /\ (forall a, a ∈ enrichment_attributes -> a ∈ columns merged)
    /\ Forall2 (fun l r => exists e, r = l ++ e) (rows df) (rows merged)
    /\ (fresh_labels df = true -> columns merged = columns df ++ record_columns).
Proof.
  intros Hds Hclash Hstr Hnd Hent Hne. unfold dataset in Hds.
  apply andb_true_iff in Hds as [Hds Htext].
  apply andb_true_iff in Hds as [_ Hrect].
  destruct (column df title_column) as [cells|] eqn:Hcol; [|done].
  assert (Forall (fun v => text_or_null v = true) cells) as Htext'.
  { apply Forall_forall. intros v Hv.
    by apply (proj1 (forallb_forall _ _) Htext), list_elem_of_In. }
  assert (Forall (fun r => length r = length (columns df)) (rows df)) as Hrect'.
  { apply Forall_forall. intros r Hr. apply Nat.eqb_eq.
    by apply (proj1 (forallb_forall _ _) Hrect), list_elem_of_In. }
  assert (enriched_data <> []) as Hne'.
  { intros ->. apply Forall2_nil_inv_r in Hent. done. }
  destruct (from_records_entries titles enriched_data Hent Hne')
    as (Hrcols & Hrrect & Hrlen & Hrcol).
  destruct (keys_of_str cells Htext') as (lkeys & Hlkeys & _).
  pose proof (keys_of_length _ _ Hlkeys) as Hllen.
  destruct (column_length _ _ _ Hcol) as [Hclen _].
  unfold merge_left. rewrite Hrcol, Hcol. cbn [rbind].
  rewrite (keys_of_strs titles Hstr), Hlkeys. cbn [rbind].
  set (right' := if String.eqb title_column "original_title"
                 then drop "original_title" (from_records enriched_data)
                 else from_records enriched_data).
  set (keyed := zip (map (fun v => default KNull (key_of v)) titles) (rows right')).
  set (pad := replicate (length (columns right')) VNaN).
  assert (rectangular right') as Hrect_r.
  { subst right'. destruct (String.eqb _ _); [by apply drop_rectangular|done]. }
  assert (forall a, a ∈ enrichment_attributes -> a ∈ columns right') as Hattrs.
  { intros a Ha. subst right'. destruct (String.eqb _ _).
    - apply elem_of_drop_columns. rewrite Hrcols. split.
      + apply elem_of_app. by left.
      + intros ->. revert Ha. by apply not_elem_of_list.
    - rewrite Hrcols. apply elem_of_app. by left. }
  assert (forall k e, (k, e) ∈ keyed -> length e = length (columns right')) as Hkeyed.
  { intros k e Hin. destruct (elem_of_zip _ _ _ _ Hin) as [_ He].
    by apply (proj1 (Forall_forall _ _) Hrect_r). }
  assert (forall c, c ∈ columns right' -> c ∈ record_columns) as Hsub.
  { intros c Hc. subst right'. destruct (String.eqb _ _).
    - apply elem_of_drop_columns in Hc as [Hc _]. by rewrite <- Hrcols.
    - by rewrite <- Hrcols. }
  assert (NoDup (columns right')) as Hnd_r.
  { subst right'. destruct (String.eqb _ _).
    - eapply sublist_NoDup; [|apply select_sublist].
      rewrite Hrcols. apply record_columns_NoDup.
    - rewrite Hrcols. apply record_columns_NoDup. }
  change (String.eqb "_api_dup" "") with false. rewrite andb_false_r.
  rewrite no_suffix_duplicates, andb_false_r; [|done| |].
  2:{ intros r1 r2 H1%Hsub H2%Hsub.
      exact (proj1 (Forall_forall _ _)
               (proj1 (Forall_forall _ _) record_labels_suffix r1 H1) r2 H2). }
  2:{ intros a Ha%Hsub HaL HaL'.
      pose proof (proj1 (forallb_forall _ _) Hclash a
                    (proj1 (list_elem_of_In _ _) Ha)) as Hc.
      cbv beta in Hc. by rewrite !bool_decide_eq_true_2 in Hc by done. }
  eexists. split; [reflexivity|]. split_and!.
  - unfold rectangular. cbn [columns rows]. apply Forall_forall. intros r Hr.
    destruct (zip_with_join_extends _ _ _ _ _ Hr) as (l & e & Hl & -> & He).
    rewrite !length_app, length_map.
    rewrite (proj1 (Forall_forall _ _) Hrect' l Hl). f_equal.
    destruct He as [->|(k & Hin)]; [apply length_replicate|by eapply Hkeyed].
  - intros a Ha. cbn [columns]. apply elem_of_app.
    destruct (decide (a ∈ columns df)) as [Hin|Hnin]; [by left|right].
    apply elem_of_map. exists a. split; [|by apply Hattrs].
    by rewrite bool_decide_eq_false_2.
  - cbn [rows].
    eapply Forall2_impl;
      [apply zip_with_join_single; [|congruence]|].
    + subst keyed. apply NoDup_zip_fst. by apply NoDup_str_keys.
    + intros l r (e & -> & _). by exists e.
  - intros Hfresh. cbn [columns]. f_equal.
    assert (forall a, a ∈ record_columns -> a ∉ columns df) as Hfresh'.
    { intros a Ha HaL.
      pose proof (proj1 (forallb_forall _ _) Hfresh a
                    (proj1 (list_elem_of_In _ _) Ha)) as Hc.
      cbv beta in Hc. by rewrite bool_decide_eq_true_2 in Hc by done. }
    assert (right' = from_records enriched_data) as ->.
    { subst right'. destruct (String.eqb_spec title_column "original_title")
        as [->|]; [|done].
      exfalso. apply (Hfresh' "original_title").
      - apply elem_of_app. right. by left.
      - by apply (column_length _ _ _ Hcol). }
    rewrite Hrcols. rewrite <- (map_id record_columns) at 2.
    apply map_ext_in. intros a Ha%list_elem_of_In.
    by rewrite bool_decide_eq_false_2 by (by apply Hfresh').
Qed.

(** *** The completeness pass *)

Lemma fill_defaults_spec df :
  rectangular df ->
  columns (fill_defaults df) = columns df
  /\ rectangular (fill_defaults df)
  /\ rows (fill_defaults df) =
       map (zip_with (fill_with (get_default_data false)) (columns df)) (rows df).
Proof. intros Hrect. apply (fill_fold _ default_values df Hrect). Qed.


(** Without the title column the frame comes back as it is, after the
    banner and one error line, and nothing is requested. *)
Lemma enrich_untitled df title_column sample_size delay tr :
  title_column ∉ columns df ->
  enrich_dataset_with_api repr net permutation df title_column sample_size
    delay tr =
    (Ok df, tr ++ [EvLog INFO; EvLog INFO; EvLog INFO; EvLog ERROR]).
Proof.
  intros Hno. unfold enrich_dataset_with_api. rewrite !bind_log.
  rewrite bool_decide_eq_false_2 by done. cbn [negb]. rewrite bind_log.
  unfold ret. by rewrite <- !app_assoc.
Qed.


(** Row preservation wherever the merge goes through: the output has one
    row per input row. *)
Lemma rows_preserved df title_column sample_size delay tr :
  dataset df title_column = true ->
  some_title df title_column = true ->
  no_suffix_clash df = true ->
  permutation_ok permutation ->
  exists out tr',
    enrich_dataset_with_api repr net permutation df title_column sample_size
      delay tr = (Ok out, tr')
    /\ length (rows out) = length (rows df).
Proof.
  intros Hds Hsome Hclash Hperm.
  destruct (enrich_run df title_column sample_size delay tr Hds Hperm)
    as (titles & ds & tr' & Hstr & Hnd & Hne & _ & Hent & Hrun).
  destruct (merge_entries df title_column titles ds Hds Hclash Hstr Hnd Hent
              (Hne Hsome))
    as (merged & Hmerge & Hrect & Hattrs & Hrows & _).
  rewrite Hmerge in Hrun. cbn [rbind] in Hrun.
  eexists _, tr'. split; [exact Hrun|].
  set (joined := if bool_decide ("original_title" ∈ columns merged)
                 then drop "original_title" merged else merged).
  assert (rectangular joined) as Hrect_j.
  { subst joined. case_bool_decide; [by apply drop_rectangular|done]. }
  destruct (fill_defaults_spec joined Hrect_j) as (_ & _ & ->).
  rewrite length_map. subst joined.
  case_bool_decide; rewrite ?drop_rows_length; symmetry; by eapply Forall2_length.
Qed.





End Lemmas.


(** On [clashing] the suffix of the merge produces the label
    [api_author_api_dup] a second time and the merge raises. *)
Lemma clashing_merge_raises :
  dataset clashing "Title" = true
  /\ some_title clashing "Title" = true
  /\ no_suffix_clash clashing = false
  /\ (enrich_dataset_with_api (fun _ => "") (fun _ _ _ => Timeout) (seq 0)
        clashing "Title" None 200 []).1 = Raise MergeError.
Proof. split_and!; vm_compute; reflexivity. Qed.



(** C2, on a dataset whose only title is missing: no title is processed,
    the enrichment table built from the empty list has no column
    [original_title], and the merge raises [KeyError]; no output exists. *)
Lemma blank_titles_merge_raises :
  let run :=
    enrich_dataset_with_api (fun _ => "") (fun _ _ _ => Timeout) (seq 0)
      blank_titles "Title" None 200 [] in
  dataset blank_titles "Title" = true
  /\ columns (from_records []) = []
  /\ run.1 = Raise KeyError
  /\ requests run.2 = [].
Proof. split_and!; vm_compute; reflexivity. Qed.

(** C5, on an input file without the column [Title]: [main] does not stop;
    it writes the unchanged input as the output dataset, logs success and
    returns it. *)
Lemma main_untitled_writes_output :
  let run :=
    main (fun _ => "") (fun _ _ _ => Timeout) (seq 0) only_input
      (fun _ => untitled) [] in
  ("Title" ∉ columns untitled)
  /\ run.1 = Ok (Some untitled)
  /\ EvToCsv "./output/ML_Dataset_Enriched.csv" untitled ∈ run.2
  /\ lookup 9%nat run.2 = Some (EvLog ERROR)
  /\ requests run.2 = [].
Proof.
  split_and!; [by apply not_elem_of_list|reflexivity| |reflexivity|reflexivity].
  vm_compute. do 10 apply list_elem_of_further. apply list_elem_of_here.
Qed.

End EnrichProps.

(** * Further properties *)

(** ** [search_book_by_title] on any network *)

Module SearchMore.
Import Py Pandas Effects ApiEnrichment Notions TraceProps PandasProps
  SearchProps EnrichProps.

Section Lemmas.

Variable repr : value -> string.
Variable net : nat -> string -> dict -> outcome.

Lemma requests_snoc_get tr url params :
  length (requests (tr ++ [EvGet url params])) = S (length (requests tr)).
Proof. rewrite requests_app, length_app. simpl. lia. Qed.

Lemma requests_snoc_other tr e :
  is_get e = false -> requests (tr ++ [e]) = requests tr.
Proof.
  intros He. rewrite requests_app. unfold requests at 2. simpl. rewrite He.
  by rewrite app_nil_r.
Qed.

Lemma attempts_request_bound title clean_title max_retries todo :
  forall tr,
    (length (requests (attempts repr net title clean_title max_retries todo tr).2)
     <= length (requests tr) + length todo)%nat.
Proof.
  induction todo as [|a todo IH]; intros tr; [simpl; lia|].
  cbn [attempts]. unfold bind at 1, requests_get.
  set (tr1 := tr ++ [EvGet base_url [("title", VStr clean_title); ("limit", VInt 1)]]).
  assert (length (requests tr1) = S (length (requests tr))) as Htr1
    by apply requests_snoc_get.
  assert (forall tr2, requests tr2 = requests tr1 ->
            (length (requests
               (attempts repr net title clean_title max_retries todo tr2).2)
             <= length (requests tr) + length (a :: todo))%nat) as Hrest.
  { intros tr2 Heq. etrans; [apply IH|]. rewrite Heq, Htr1. simpl. lia. }
  assert ((length (requests
             ((on_exception title;;
               attempts repr net title clean_title max_retries todo) tr1).2)
           <= length (requests tr) + length (a :: todo))%nat) as Hexc.
  { unfold bind, on_exception, lift.
    destruct (py_slice 20 title) as [v|e]; simpl.
    - apply Hrest. by apply requests_snoc_other.
    - rewrite Htr1. lia. }
  destruct (net _ _ _) as [| |status body].
  - unfold bind. case_bool_decide; simpl.
    + apply Hrest. by apply requests_snoc_other.
    + by apply Hrest.
  - exact Hexc.
  - case_bool_decide; [|by apply Hrest].
    destruct body as [data|]; [|exact Hexc].
    destruct (on_success repr data); [|exact Hexc].
    simpl. rewrite Htr1. lia.
Qed.

Lemma attempts_error_status title clean_title max_retries :
  (forall n url params,
     exists status body, net n url params = Response status body /\ status <> 200) ->
  forall todo tr,
    attempts repr net title clean_title max_retries todo tr =
      (Ok (get_default_data false),
       tr ++ replicate (length todo) (search_request clean_title)).
Proof.
  intros Hnet. induction todo as [|a todo IH]; intros tr.
  - simpl. unfold ret. by rewrite app_nil_r.
  - cbn [attempts]. unfold bind at 1, requests_get.
    destruct (Hnet (length (requests tr)) base_url
                [("title", VStr clean_title); ("limit", VInt 1)])
      as (status & body & -> & Hs).
    rewrite bool_decide_eq_false_2 by done. rewrite IH.
    fold (search_request clean_title). simpl. by rewrite <- app_assoc.
Qed.

Lemma all_strings_take (l : list value) ss n :
  all_strings l = Some ss -> all_strings (take n l) = Some (take n ss).
Proof.
  revert ss n. induction l as [|v l IH]; intros ss n H.
  - simpl in H. injection H as <-. by destruct n.
  - destruct v; try done. simpl in H.
    destruct (all_strings l) as [ss'|] eqn:Hl; [|done].
    simpl in H. injection H as <-. destruct n as [|n]; [done|].
    simpl. by rewrite (IH ss' n eq_refl).
Qed.

Lemma joined_or_list d field (limit : option nat) dflt (l : list value) ss :
  dict_get d field = Some (VList l) -> l <> [] -> all_strings l = Some ss ->
  joined_or (VDict d) field limit dflt =
    Ok (VStr (join ", " (match limit with Some n => take n ss | None => ss end))).
Proof.
  intros Hd Hl Hss. unfold joined_or. simpl. rewrite Hd. simpl.
  destruct l as [|v l]; [done|]. cbn [rbind].
  destruct limit as [n|]; cbn [rbind py_join].
  - by rewrite (all_strings_take _ _ n Hss).
  - by rewrite Hss.
Qed.

End Lemmas.

(** X1.  Whatever the network does and whatever the title, one call issues
    at most [max_retries] requests, also when it ends in an exception. *)
Theorem search_request_bound repr net (title : value) (max_retries : Z)
    (tr : list event) :
  (length (requests (search_book_by_title repr net title max_retries tr).2)
   <= length (requests tr) + Z.to_nat max_retries)%nat.
Proof.
  unfold search_book_by_title. destruct (negb _ || _); [simpl; lia|].
  etrans; [apply attempts_request_bound|]. by rewrite length_seqZ.
Qed.

(** X2.  A source that answers every attempt with a status other than 200
    is asked [max_retries] times in a row, without any sleep or log line in
    between, and the default not-found record is returned. *)
Theorem error_status_retried_at_once repr net (title : value)
    (max_retries : Z) (tr : list event) :
  strip (py_str repr title) <> "" ->
  lower (strip (py_str repr title)) <> "nan" ->
  (forall n url params,
     exists status body, net n url params = Response status body /\ status <> 200) ->
  search_book_by_title repr net title max_retries tr =
    (Ok (get_default_data false),
     tr ++ replicate (Z.to_nat max_retries)
             (search_request (strip (py_str repr title)))).
Proof.
  intros H1 H2 Hnet. rewrite search_attempts by done.
  rewrite (attempts_error_status repr net title _ max_retries Hnet).
  by rewrite length_seqZ.
Qed.

Lemma error_status_retried_at_once_witness :
  search_book_by_title (fun _ => "") (fun _ _ _ => Response 503 None)
    (VStr "Dune") 3 [] =
    (Ok (get_default_data false),
     [search_request "Dune"; search_request "Dune"; search_request "Dune"]).
Proof.
  apply (error_status_retried_at_once (fun _ => "")
           (fun _ _ _ => Response 503 None) (VStr "Dune") 3 []);
    [done|done|].
  intros n url params. by exists 503, None.
Defined.

(** X3.  The handler of a non-timeout exception quotes [title[:20]]: for a
    title that cannot be sliced (a number, a boolean) the first such
    exception is not absorbed; the call itself raises, after one request. *)
Theorem unsliceable_title_error_escapes repr net (title : value)
    (max_retries : Z) (tr : list event) (e : exn) :
  py_slice 20 title = Raise e ->
  strip (py_str repr title) <> "" ->
  lower (strip (py_str repr title)) <> "nan" ->
  1 <= max_retries ->
  net (length (requests tr)) base_url
    [("title", VStr (strip (py_str repr title))); ("limit", VInt 1)] =
    ConnectionError ->
  search_book_by_title repr net title max_retries tr =
    (Raise e, tr ++ [search_request (strip (py_str repr title))]).
Proof.
  intros Hslice H1 H2 Hm Hnet. rewrite search_attempts by done.
  rewrite seqZ_cons by lia. cbn [attempts]. unfold bind at 1, requests_get.
  rewrite Hnet. unfold bind, on_exception, lift. by rewrite Hslice.
Qed.

Lemma unsliceable_title_error_escapes_witness :
  search_book_by_title (fun _ => "") (fun _ _ _ => ConnectionError)
    (VInt 1984) 3 [] =
    (Raise TypeError, [search_request "1984"]).
Proof.
  apply (unsliceable_title_error_escapes (fun _ => "")
           (fun _ _ _ => ConnectionError) (VInt 1984) 3 [] TypeError);
    [reflexivity|by vm_compute|by vm_compute|lia|reflexivity].
Defined.

(** X4.  When the first answer is a success whose first document yields a
    record, that record is returned at once, with discovery flag true,
    after exactly one request. *)
Theorem first_match_returns_at_once repr net (title : value)
    (max_retries : Z) (tr : list event) (data : dict) (book : value)
    (others : list value) (record : dict) :
  strip (py_str repr title) <> "" ->
  lower (strip (py_str repr title)) <> "nan" ->
  1 <= max_retries ->
  net (length (requests tr)) base_url
    [("title", VStr (strip (py_str repr title))); ("limit", VInt 1)] =
    Response 200 (Some (VDict data)) ->
  dict_get data "docs" = Some (VList (book :: others)) ->
  found_record repr book = Ok record ->
  search_book_by_title repr net title max_retries tr =
    (Ok record, tr ++ [search_request (strip (py_str repr title))])
  /\ dict_get record "api_found" = Some (VBool true).
Proof.
  intros H1 H2 Hm Hnet Hdocs Hrec. rewrite search_attempts by done.
  rewrite seqZ_cons by lia. cbn [attempts]. unfold bind at 1, requests_get.
  rewrite Hnet. rewrite bool_decide_eq_true_2 by done.
  assert (on_success repr (VDict data) = Ok record) as ->.
  { unfold on_success. simpl. rewrite Hdocs. simpl. by rewrite Hrec. }
  split; [done|].
  unfold found_record in Hrec.
  repeat match type of Hrec with
         | rbind ?x _ = Ok _ => destruct x; simpl in Hrec; [|done]
         end.
  by injection Hrec as <-.
Qed.

Lemma first_match_returns_at_once_witness :
  let book := VDict [("title", VStr "Dune"); ("author_name", VList [VStr "Frank Herbert"])] in
  let net := fun (_ : nat) (_ : string) (_ : dict) =>
    Response 200 (Some (VDict [("docs", VList [book])])) in
  exists record,
    search_book_by_title (fun _ => "") net (VStr "Dune") 3 [] =
      (Ok record, [search_request "Dune"])
    /\ dict_get record "api_found" = Some (VBool true).
Proof.
  intros book net. eexists.
  apply (first_match_returns_at_once (fun _ => "") net (VStr "Dune") 3 []
           [("docs", VList [book])] book []);
    [done|done|lia|reflexivity|reflexivity|reflexivity].
Defined.

(** X5.  For a textual title the call never raises, whatever the network
    answers, and the record it returns has exactly the declared attributes
    as keys, in their order. *)
Theorem textual_title_never_raises repr net (title : string)
    (max_retries : Z) (tr : list event) :
  exists record tr',
    search_book_by_title repr net (VStr title) max_retries tr = (Ok record, tr')
    /\ keys record = enrichment_attributes.
Proof. by apply search_text. Qed.

(** X6.  A document that omits a source field leaves the constant of the
    default record in the attribute fed by that field, for every attribute
    outside [mismatched_attributes]. *)
Theorem omitted_field_gets_default repr (d : dict) (record : dict)
    (attribute field : string) :
  found_record repr (VDict d) = Ok record ->
  (attribute, field) ∈ source_field ->
  attribute ∉ mismatched_attributes ->
  dict_get d field = None ->
  dict_get record attribute = dict_get (get_default_data false) attribute.
Proof. apply found_record_omitted. Qed.

Lemma omitted_field_gets_default_witness :
  exists record,
    found_record (fun _ => "") (VDict [("title", VStr "Dune")]) = Ok record
    /\ dict_get record "api_language" = Some (VStr "en").
Proof.
  eexists. split; [reflexivity|].
  apply (omitted_field_gets_default (fun _ => "") [("title", VStr "Dune")] _
           "api_language" "language").
  - reflexivity.
  - do 8 apply list_elem_of_further. apply list_elem_of_here.
  - by apply not_elem_of_list.
  - reflexivity.
Defined.

(** X7.  The list attributes keep at most the first items of their source
    list: three identifiers, three publishers, five subjects, every author;
    the items are joined with a comma and a blank. *)
Theorem list_fields_truncated repr (d : dict) (record : dict)
    (attribute field : string) (limit : option nat) (l : list value)
    (ss : list string) :
  found_record repr (VDict d) = Ok record ->
  (attribute, field, limit) ∈ joined_fields ->
  dict_get d field = Some (VList l) -> l <> [] -> all_strings l = Some ss ->
  dict_get record attribute =
    Some (VStr (join ", " (match limit with Some n => take n ss | None => ss end))).
Proof.
  intros Hrec Hin Hd Hl Hss. unfold joined_fields in Hin.
  unfold found_record in Hrec.
  repeat (apply elem_of_cons in Hin as [Hin|Hin];
          [injection Hin as -> -> ->;
           rewrite (joined_or_list d _ _ _ l ss Hd Hl Hss) in Hrec|]);
    try (by apply elem_of_nil in Hin);
    repeat match type of Hrec with
           | rbind ?x _ = Ok _ => destruct x; simpl in Hrec; [|done]
           end;
    by injection Hrec as <-.
Qed.

Lemma list_fields_truncated_witness :
  let isbns := [VStr "9780441013593"; VStr "0441013597"; VStr "9780340960196";
                VStr "0340960191"] in
  exists record,
    found_record (fun _ => "") (VDict [("isbn", VList isbns)]) = Ok record
    /\ dict_get record "api_isbn_all" =
       Some (VStr "9780441013593, 0441013597, 9780340960196").
Proof.
  intros isbns. eexists. split; [reflexivity|].
  apply (list_fields_truncated (fun _ => "") [("isbn", VList isbns)] _
           "api_isbn_all" "isbn" (Some 3%nat) isbns
           ["9780441013593"; "0441013597"; "9780340960196"; "0340960191"]).
  - reflexivity.
  - apply list_elem_of_further. apply list_elem_of_here.
  - reflexivity.
  - done.
  - reflexivity.
Defined.

End SearchMore.

(** ** [enrich_dataset_with_api] beyond completeness *)

Module EnrichMore.
Import Py Pandas Effects ApiEnrichment Notions TraceProps PandasProps
  SearchProps EnrichProps.

Lemma frame_eq (a b : DataFrame) :
  columns a = columns b -> rows a = rows b -> a = b.
Proof. destruct a, b. simpl. by intros -> ->. Qed.

Lemma dict_get_elem (d : dict) k v : dict_get d k = Some v -> (k, v) ∈ d.
Proof.
  induction d as [|[k' v'] d IH]; simpl; [done|].
  destruct (String.eqb_spec k' k) as [->|].
  - intros [= ->]. by left.
  - intros H. right. by apply IH.
Qed.

Lemma fill_with_twice c v :
  fill_with (get_default_data false) c (fill_with (get_default_data false) c v) =
    fill_with (get_default_data false) c v.
Proof.
  unfold fill_with. destruct (is_null v) eqn:Hv; [|by rewrite Hv].
  destruct (dict_get (get_default_data false) c) as [d|] eqn:Hd; simpl;
    [|by rewrite Hv].
  assert (is_null d = false) as ->; [|done].
  by apply (proj1 (Forall_forall _ _) default_values (c, d)), dict_get_elem.
Qed.



(** X9.  Without the title column the input comes back unchanged after the
    banner and one error line: no title is processed, nothing is requested,
    no column is added. *)
Theorem missing_title_column_returns_input repr net permutation
    (df : DataFrame) (title_column : string) (sample_size : option nat)
    (delay : Z) (tr : list event) :
  title_column ∉ columns df ->
  enrich_dataset_with_api repr net permutation df title_column sample_size
    delay tr =
    (Ok df, tr ++ [EvLog INFO; EvLog INFO; EvLog INFO; EvLog ERROR]).
Proof. apply enrich_untitled. Qed.

Lemma missing_title_column_returns_input_witness :
  enrich_dataset_with_api (fun _ => "") (fun _ _ _ => Timeout) (seq 0)
    untitled "Title" None 200 [] =
    (Ok untitled, [EvLog INFO; EvLog INFO; EvLog INFO; EvLog ERROR]).
Proof.
  apply (missing_title_column_returns_input (fun _ => "")
           (fun _ _ _ => Timeout) (seq 0) untitled "Title" None 200 []).
  by apply not_elem_of_list.
Defined.

(** X10.  On a dataset that has the title column but no title at all (no
    rows, or only missing titles) the call raises [KeyError] at the merge:
    the table built from no record has no column [original_title]. *)
Theorem no_title_merge_raises repr net permutation (df : DataFrame)
    (title_column : string) (sample_size : option nat) (delay : Z)
    (tr : list event) :
  dataset df title_column = true ->
  some_title df title_column = false ->
  permutation_ok permutation ->
  (enrich_dataset_with_api repr net permutation df title_column sample_size
     delay tr).1 = Raise KeyError.
Proof.
  intros Hds Hnone Hperm.
  destruct (enrich_run repr net permutation df title_column sample_size delay tr
              Hds Hperm)
    as (titles & ds & tr' & _ & _ & _ & Hempty & Hent & ->).
  rewrite (Hempty Hnone) in Hent. apply Forall2_nil_inv_l in Hent as ->.
  reflexivity.
Qed.

Lemma no_title_merge_raises_witness :
  (enrich_dataset_with_api (fun _ => "") (fun _ _ _ => Timeout) (seq 0)
     (mkDF ["Title"; "Price"] []) "Title" None 200 []).1 = Raise KeyError.
Proof.
  apply (no_title_merge_raises (fun _ => "") (fun _ _ _ => Timeout) (seq 0)
           (mkDF ["Title"; "Price"] []) "Title" None 200 []).
  - vm_compute. reflexivity.
  - vm_compute. reflexivity.
  - intros n. reflexivity.
Defined.

(** X11.  The completeness pass keeps the columns and the number of rows,
    touches only missing cells, and is idempotent: run on its own output it
    changes nothing. *)
Theorem completeness_pass_idempotent (df : DataFrame) :
  rectangular df ->
  columns (fill_defaults df) = columns df
  /\ length (rows (fill_defaults df)) = length (rows df)
  /\ Forall2 (Forall2 (fun v w => is_null v = false -> w = v))
       (rows df) (rows (fill_defaults df))
  /\ fill_defaults (fill_defaults df) = fill_defaults df.
Proof.
  intros Hrect.
  destruct (fill_defaults_spec df Hrect) as (Hcols & Hrect' & Hrows).
  destruct (fill_defaults_spec _ Hrect') as (Hcols2 & _ & Hrows2).
  split_and!.
  - done.
  - by rewrite Hrows, length_map.
  - rewrite Hrows. clear Hrows Hrows2 Hrect'. unfold rectangular in Hrect.
    induction Hrect as [|r rs Hr _ IH]; [constructor|].
    rewrite map_cons. constructor; [|exact IH]. clear IH.
    revert r Hr. generalize (columns df).
    induction l as [|c cols IHc]; intros [|v r] Hr; try done;
      try (by constructor).
    simpl. constructor.
    + unfold fill_with. by intros ->.
    + apply IHc. simpl in Hr. lia.
  - apply frame_eq; [by rewrite Hcols2|].
    rewrite Hrows2, Hcols, Hrows, map_map. apply map_ext. intros r.
    rewrite zip_with_twice. apply zip_with_ext; [|done..].
    intros c v. apply fill_with_twice.
Qed.

Lemma completeness_pass_idempotent_witness :
  let df := mkDF ["Title"; "api_author"] [[VStr "Dune"; VNaN]] in
  fill_defaults (fill_defaults df) = fill_defaults df.
Proof.
  intros df. apply (completeness_pass_idempotent df). by repeat constructor.
Defined.



End EnrichMore.

(** ** The Google Books script beyond cache idempotence *)

Module GoogleMore.
Import Py Pandas Effects GoogleData Notions TraceProps PandasProps GoogleProps.

Section Lemmas.

Variable repr : value -> string.
Variable net : nat -> string -> dict -> outcome.

Lemma dict_get_key (d : dict) k v : dict_get d k = Some v -> k ∈ keys d.
Proof.
  induction d as [|[k' v'] d IH]; simpl; [done|].
  destruct (String.eqb_spec k' k) as [->|]; [by left|].
  intros H. right. by apply IH.
Qed.

Lemma mod_step (n : nat) :
  (n mod 50 <> 0 -> S ((n - 1) mod 50) = n mod 50)%nat.
Proof.
  intros Hn. pose proof (Nat.div_mod_eq n 50) as Hdm.
  pose proof (Nat.mod_upper_bound n 50) as Hub.
  set (q := (n / 50)%nat) in *. set (r := (n mod 50)%nat) in *.
  assert ((n - 1 = (r - 1) + q * 50)%nat) as -> by lia.
  rewrite Nat.Div0.mod_add. rewrite Nat.mod_small; lia.
Qed.

(** A miss in full: what the row leaves in the state. *)
Lemma process_row_miss_state cols st row tr :
  cache st !! title_key repr cols row = None ->
  match (process_row repr net cols st row tr).1 with
  | Ok st' =>
      exists i,
        st' = mkState (<[title_key repr cols row := i]> (cache st))
                (if Nat.eqb (rows_processed st mod 50) 0
                 then Some (<[title_key repr cols row := i]> (cache st))
                 else cache_file st)
                (new_data st ++ [i]) (S (rows_processed st))
  | Raise _ => True
  end.
Proof.
  intros H.
  destruct (get_book_info_trace repr net
              (row_get cols row "api_isbn" (VStr ""))
              (VStr (title_key repr cols row))
              (row_get cols row "api_author" (VStr ""))
              (tr ++ [EvLookup (title_key repr cols row)]))
    as (volume & evs & Hg & _ & _).
  unfold process_row, bind, emit, lift, sleep, ret. rewrite H, Hg.
  destruct (tidy volume) as [i|e]; [|done].
  unfold emit. simpl. by exists i.
Qed.

(** The counters and the cache after a run that ends normally. *)
Lemma main_loop_counts cols rows :
  forall st tr,
    match (main_loop repr net cols st rows tr).1 with
    | Ok st' =>
        length (new_data st') = (length (new_data st) + length rows)%nat
        /\ rows_processed st' = (rows_processed st + length rows)%nat
        /\ cache st ⊆ cache st'
        /\ (forall k, is_Some (cache st' !! k) <->
              is_Some (cache st !! k)
              \/ exists row, row ∈ rows /\ title_key repr cols row = k)
    | Raise _ => True
    end.
Proof.
  induction rows as [|row rows IH]; intros st tr.
  - simpl. split_and!; [lia|lia|done|].
    intros k. split; [by left|]. intros [?|(row & Hin & _)]; [done|].
    by apply elem_of_nil in Hin.
  - cbn [main_loop]. unfold bind.
    destruct (process_row repr net cols st row tr) as [[st1|e] tr1] eqn:Hrow;
      [|done].
    specialize (IH st1 tr1).
    destruct (main_loop repr net cols st1 rows tr1) as [[st'|e] tr'];
      [|done]. simpl in *.
    destruct IH as (Hlen & Hcount & Hsub & Hdom).
    assert (length (new_data st1) = S (length (new_data st))
            /\ rows_processed st1 = S (rows_processed st)
            /\ cache st ⊆ cache st1
            /\ (forall k, is_Some (cache st1 !! k) <->
                  is_Some (cache st !! k) \/ title_key repr cols row = k))
      as (Hlen1 & Hcount1 & Hsub1 & Hdom1).
    { destruct (cache st !! title_key repr cols row) as [i|] eqn:Hkey.
      - rewrite (process_row_hit repr net cols st row tr i Hkey) in Hrow.
        injection Hrow as <- <-. simpl. rewrite length_app. simpl.
        split_and!; [lia|done|done|].
        intros k. split; [by left|]. intros [?|<-]; [done|].
        by rewrite Hkey.
      - pose proof (process_row_miss_state cols st row tr Hkey) as Hst.
        rewrite Hrow in Hst. simpl in Hst. destruct Hst as (i & ->). simpl.
        rewrite length_app. simpl. split_and!; [lia|done| |].
        + by apply insert_subseteq.
        + intros k. destruct (decide (title_key repr cols row = k)) as [<-|Hne].
          * rewrite lookup_insert_eq. split; [by right|by eauto].
          * rewrite lookup_insert_ne by done. split; [by left|].
            by intros [?|?]. }
    split_and!; [simpl; lia|simpl; lia|by etrans|].
    intros k. rewrite Hdom, Hdom1. split.
    + intros [[?|<-]|(r & Hin & <-)]; [by left|right..].
      * exists row. split; [by left|done].
      * exists r. split; [by right|done].
    + intros [?|(r & [->|Hin]%elem_of_cons & <-)].
      * by left; left.
      * by left; right.
      * right. by exists r.
Qed.

(** When no row hits the cache, the entries the file lacks after [n] rows
    number [(n - 1) mod 50]. *)
Lemma main_loop_all_misses cols rows :
  forall st tr,
    NoDup (map (title_key repr cols) rows) ->
    (forall row, row ∈ rows -> cache st !! title_key repr cols row = None) ->
    default ∅ (cache_file st) ⊆ cache st ->
    unflushed st =
      match rows_processed st with
      | O => O
      | S n => (n mod 50)%nat
      end ->
    match (main_loop repr net cols st rows tr).1 with
    | Ok st' =>
        unflushed st' =
          match rows_processed st' with
          | O => O
          | S n => (n mod 50)%nat
          end
    | Raise _ => True
    end.
Proof.
  induction rows as [|row rows IH]; intros st tr Hnd Hmiss Hsub Hunf; [done|].
  cbn [main_loop]. unfold bind.
  pose proof (process_row_miss_state cols st row tr (Hmiss row ltac:(by left)))
    as Hst.
  destruct (process_row repr net cols st row tr) as [[st1|e] tr1]; [|done].
  cbn [fst] in Hst. destruct Hst as (i & ->).
  rewrite map_cons in Hnd. apply NoDup_cons in Hnd as [Hfresh Hnd].
  assert (cache st !! title_key repr cols row = None) as Hkey
    by (apply Hmiss; by left).
  assert (default ∅ (cache_file st) !! title_key repr cols row = None) as Hfile
    by (eapply lookup_weaken_None; eauto).
  apply IH; cbn [cache cache_file rows_processed new_data]; [done| | |].
  - intros r Hr.
    rewrite lookup_insert_ne; [apply Hmiss; by right|].
    intros Heq. apply Hfresh. rewrite Heq. apply elem_of_map. by exists r.
  - destruct (Nat.eqb _ 0); cbn [default from_option id]; [done|].
    by apply insert_subseteq_r.
  - unfold unflushed in *. cbn [cache cache_file rows_processed new_data].
    destruct (Nat.eqb_spec (rows_processed st mod 50) 0) as [Hz|Hnz];
      cbn [default from_option id].
    + rewrite map_difference_diag, map_size_empty. by rewrite Hz.
    + rewrite <- insert_difference' by done.
      rewrite map_size_insert_None
        by (apply lookup_difference_None; by left).
      rewrite Hunf. destruct (rows_processed st) as [|n] eqn:Hn; [done|].
      pose proof (mod_step (S n) Hnz) as Hstep.
      replace (S n - 1)%nat with n in Hstep by lia. done.
Qed.

(** A request from which no volume can be read makes the query find
    nothing. *)
Lemma query_no_volume url tr :
  no_volume (net (length (requests tr)) url []) = true ->
  query net url tr = (Ok None, tr ++ [EvGet url []]).
Proof.
  unfold query, bind, requests_get, ret, no_volume.
  destruct (net _ _ _) as [| |status [data|]]; try done.
  case_bool_decide as Hs; [|done]. subst status. simpl.
  by destruct (first_volume data) as [[v|]|e].
Qed.

Lemma lookup_no_volume isbn title author tr :
  (forall n url params, no_volume (net n url params) = true) ->
  exists evs,
    get_book_info_from_google repr net isbn title author tr = (Ok VNone, tr ++ evs).
Proof.
  intros Hnet. unfold get_book_info_from_google, by_title, bind, ret.
  destruct (usable repr isbn _).
  - rewrite query_no_volume by apply Hnet.
    destruct (usable repr title _).
    + rewrite query_no_volume by apply Hnet. rewrite <- app_assoc. eauto.
    + eauto.
  - destruct (usable repr title _).
    + rewrite query_no_volume by apply Hnet. eauto.
    + exists []. by rewrite app_nil_r.
Qed.

Lemma main_loop_offline cols rows :
  (forall n url params, no_volume (net n url params) = true) ->
  forall st tr,
    (forall k i, cache st !! k = Some i -> i = not_found_entry) ->
    exists st' tr',
      main_loop repr net cols st rows tr = (Ok st', tr')
      /\ new_data st' = new_data st ++ replicate (length rows) not_found_entry.
Proof.
  intros Hnet. induction rows as [|row rows IH]; intros st tr Hall.
  - exists st, tr. by rewrite app_nil_r.
  - cbn [main_loop]. unfold bind at 1.
    destruct (cache st !! title_key repr cols row) as [i|] eqn:Hkey.
    + rewrite (process_row_hit repr net cols st row tr i Hkey).
      destruct (IH (mkState (cache st) (cache_file st) (new_data st ++ [i])
                      (S (rows_processed st))) tr Hall)
        as (st' & tr' & -> & Hnew).
      exists st', tr'. split; [done|]. rewrite Hnew. cbn [new_data].
      rewrite (Hall _ _ Hkey), <- app_assoc. done.
    + destruct (lookup_no_volume
                  (row_get cols row "api_isbn" (VStr ""))
                  (VStr (title_key repr cols row))
                  (row_get cols row "api_author" (VStr ""))
                  (tr ++ [EvLookup (title_key repr cols row)]) Hnet)
        as (evs & Hg).
      unfold process_row, bind, emit, lift, sleep, ret. rewrite Hkey, Hg.
      cbn [tidy truthy]. unfold emit. cbn beta iota.
      match goal with
      | |- exists _ _, main_loop _ _ _ ?st1 _ ?tr1 = _ /\ _ =>
          destruct (IH st1 tr1) as (st' & tr' & -> & Hnew)
      end.
      { cbn [cache]. intros k i.
        destruct (decide (title_key repr cols row = k)) as [<-|Hne].
        - rewrite lookup_insert_eq. by intros [= <-].
        - rewrite lookup_insert_ne by done. apply Hall. }
      exists st', tr'. split; [done|]. rewrite Hnew. cbn [new_data].
      by rewrite <- app_assoc.
Qed.

(** [df[label] = values] for a label the frame does not have. *)
Lemma assign_fresh label values df :
  label ∉ columns df ->
  assign label values df =
    mkDF (columns df ++ [label])
         (zip_with (fun r v => r ++ [v]) (rows df) values).
Proof.
  intros Hfresh. unfold assign, col_index.
  destruct (list_find _ _) as [[i c]|] eqn:Hfind; [|done].
  apply list_find_Some in Hfind as (Hi & -> & _).
  by apply list_elem_of_lookup_2 in Hi.
Qed.

Lemma zip_cells (rs : list (list value)) (entries : list info) :
  zip_with (fun r v => r ++ [v])
    (zip_with (fun r v => r ++ [v])
       (zip_with (fun r v => r ++ [v])
          (zip_with (fun r v => r ++ [v])
             (zip_with (fun r v => r ++ [v]) rs (map rating entries))
             (map count entries))
          (map pages entries))
       (map categories entries))
    (map desc entries) =
  zip_with (fun r i => r ++ google_cells i) rs entries.
Proof.
  revert entries. induction rs as [|r rs IH]; intros [|i entries]; try done.
  cbn [map zip_with]. rewrite IH. by rewrite <- !app_assoc.
Qed.

End Lemmas.

(** X13.  A lookup never raises, whatever the network answers: it only
    issues requests, at most one for a usable identifier plus one for a
    usable title. *)
Theorem lookup_never_raises repr net (isbn title author : value)
    (tr : list event) :
  exists volume evs,
    get_book_info_from_google repr net isbn title author tr =
      (Ok volume, tr ++ evs)
    /\ Forall (fun e => is_get e = true) evs
    /\ (length evs <= Nat.b2n (usable repr isbn ["nan"; "unknown"])
                      + Nat.b2n (usable repr title ["unknown"]))%nat.
Proof.
  unfold get_book_info_from_google, by_title, bind, ret.
  destruct (usable repr isbn _).
  - destruct (query_trace net
                (base_url +:+ "?q=isbn:" +:+ strip (remove_char "-" (py_str repr isbn)))
                tr) as [[volume|] ->].
    + exists volume. eexists [_].
      split_and!; [reflexivity|by repeat constructor|simpl; lia].
    + destruct (usable repr title _).
      * match goal with
        | |- context [query net ?url ?tr1] =>
            destruct (query_trace net url tr1) as [found ->]
        end.
        rewrite <- app_assoc.
        destruct found as [volume|]; eexists _, [_; _];
          (split_and!; [reflexivity|by repeat constructor|simpl; lia]).
      * eexists _, [_].
        split_and!; [reflexivity|by repeat constructor|simpl; lia].
  - destruct (usable repr title _).
    + match goal with
      | |- context [query net ?url ?tr1] =>
          destruct (query_trace net url tr1) as [found ->]
      end.
      destruct found as [volume|]; eexists _, [_];
        (split_and!; [reflexivity|by repeat constructor|simpl; lia]).
    + exists VNone, []. rewrite app_nil_r.
      split_and!; [reflexivity|constructor|simpl; lia].
Qed.

(** X14.  The identifier has priority: when the query by identifier is
    answered with a first item, its volume is returned after that one
    request, and title and author are not consulted. *)
Theorem isbn_match_short_circuits repr net (isbn title author : value)
    (tr : list event) (d item : dict) (others : list value) (volume : value) :
  let url :=
    base_url +:+ "?q=isbn:" +:+ strip (remove_char "-" (py_str repr isbn)) in
  usable repr isbn ["nan"; "unknown"] = true ->
  net (length (requests tr)) url [] = Response 200 (Some (VDict d)) ->
  dict_get d "items" = Some (VList (VDict item :: others)) ->
  dict_get item "volumeInfo" = Some volume ->
  get_book_info_from_google repr net isbn title author tr =
    (Ok volume, tr ++ [EvGet url []]).
Proof.
  intros url Husable Hnet Hitems Hvolume.
  unfold get_book_info_from_google. rewrite Husable.
  unfold bind, query, bind, requests_get. fold url. rewrite Hnet.
  rewrite bool_decide_eq_true_2 by done.
  unfold first_volume. cbn [py_contains rbind].
  rewrite bool_decide_eq_true_2 by (eapply dict_get_key; eauto).
  cbn [py_item rbind]. rewrite Hitems. cbn [py_index0 py_item rbind].
  by rewrite Hvolume.
Qed.

Lemma isbn_match_short_circuits_witness :
  get_book_info_from_google (fun _ => "") isbn_only_net
    (VStr "978-0441013593") (VStr "Another title") (VStr "Somebody") [] =
    (Ok dune_volume, [EvGet (base_url +:+ "?q=isbn:9780441013593") []]).
Proof.
  apply (isbn_match_short_circuits (fun _ => "") isbn_only_net
           (VStr "978-0441013593") (VStr "Another title") (VStr "Somebody") []
           [("totalItems", VInt 1);
            ("items", VList [VDict [("volumeInfo", dune_volume)]])]
           [("volumeInfo", dune_volume)] [] dune_volume);
    reflexivity.
Defined.

(** X15.  A field that a found volume omits gets the value the not-found
    entry has for it. *)
Theorem omitted_field_as_not_found (d : dict) (i : info) :
  tidy (VDict d) = Ok i ->
  (dict_get d "averageRating" = None -> rating i = rating not_found_entry)
  /\ (dict_get d "ratingsCount" = None -> count i = count not_found_entry)
  /\ (dict_get d "pageCount" = None -> pages i = pages not_found_entry)
  /\ (dict_get d "categories" = None ->
      categories i = categories not_found_entry)
  /\ (dict_get d "description" = None -> desc i = desc not_found_entry).
Proof.
  unfold tidy. destruct (truthy (VDict d)).
  - cbn [py_get rbind].
    destruct (py_join ", " (default (VList [VStr "Unknown"])
                              (dict_get d "categories"))) as [cats|e] eqn:Hj;
      cbn [rbind]; [|done].
    intros [= <-]. cbn [rating count pages categories desc not_found_entry].
    split_and!; intros H; rewrite H in *; try done.
    simpl in Hj. by injection Hj as <-.
  - intros [= <-]. by split_and!.
Qed.

Lemma omitted_field_as_not_found_witness :
  exists i,
    tidy (VDict [("title", VStr "Dune"); ("pageCount", VInt 412)]) = Ok i
    /\ rating i = VInt 0 /\ count i = VInt 0 /\ pages i = VInt 412
    /\ categories i = VStr "Unknown" /\ desc i = VStr "".
Proof.
  eexists. split; [reflexivity|].
  destruct (omitted_field_as_not_found
              [("title", VStr "Dune"); ("pageCount", VInt 412)] _ eq_refl)
    as (H1 & H2 & _ & H4 & H5).
  split_and!; [apply H1|apply H2| |apply H4|apply H5]; reflexivity.
Defined.

(** X16.  After a run of the loop that ends normally there is one entry
    per row, the counter is the number of rows, every pre-loaded entry is
    still cached, and the cached keys are the pre-loaded keys and the title
    keys of the rows. *)
Theorem loop_bookkeeping repr net (cols : list string)
    (file : option (gmap string info)) (rows : list (list value))
    (st : loop_state) (tr : list event) :
  main_loop repr net cols (initial_state file) rows [] = (Ok st, tr) ->
  length (new_data st) = length rows
  /\ rows_processed st = length rows
  /\ default ∅ file ⊆ cache st
  /\ (forall k, is_Some (cache st !! k) <->
        is_Some (default ∅ file !! k)
        \/ exists row, row ∈ rows /\ title_key repr cols row = k).
Proof.
  intros Hrun.
  pose proof (main_loop_counts repr net cols rows (initial_state file) [])
    as H.
  rewrite Hrun in H. exact H.
Qed.

Lemma loop_bookkeeping_witness :
  exists st tr,
    main_loop (fun _ => "") title_only_net ["Title"] (initial_state None)
      [[VStr "Dune"]; [VStr "Emma"]; [VStr " Dune"]] [] = (Ok st, tr)
    /\ length (new_data st) = 3%nat
    /\ rows_processed st = 3%nat.
Proof.
  destruct (main_loop (fun _ => "") title_only_net ["Title"]
              (initial_state None)
              [[VStr "Dune"]; [VStr "Emma"]; [VStr " Dune"]] [])
    as [[st|e] tr] eqn:Hrun; [|by vm_compute in Hrun].
  exists st, tr. split; [reflexivity|].
  destruct (loop_bookkeeping _ _ _ _ _ _ _ Hrun) as (H1 & H2 & _).
  split; [exact H1|exact H2].
Defined.

(** X17.  When no row hits the cache (the title keys are pairwise distinct
    and none is pre-loaded), the entries that the cache file lacks after a
    normal run over [n] rows number [(n - 1) mod 50], fewer than fifty. *)
Theorem all_misses_cadence repr net (cols : list string)
    (file : option (gmap string info)) (rows : list (list value))
    (st : loop_state) (tr : list event) :
  NoDup (map (title_key repr cols) rows) ->
  (forall row, row ∈ rows -> default ∅ file !! title_key repr cols row = None) ->
  main_loop repr net cols (initial_state file) rows [] = (Ok st, tr) ->
  unflushed st = ((length rows - 1) mod 50)%nat
  /\ (unflushed st < 50)%nat.
Proof.
  intros Hnd Hmiss Hrun.
  pose proof (main_loop_all_misses repr net cols rows (initial_state file) []
                Hnd Hmiss) as Hu.
  pose proof (main_loop_counts repr net cols rows (initial_state file) [])
    as Hc.
  rewrite Hrun in Hu, Hc. cbn [fst] in Hu, Hc.
  destruct Hc as (_ & Hcount & _).
  cbn [initial_state rows_processed] in Hcount.
  assert (unflushed st = ((length rows - 1) mod 50)%nat) as Heq.
  { rewrite Hu.
    - rewrite Hcount. destruct (length rows) as [|n]; [done|].
      by replace (S n - 1)%nat with n by lia.
    - done.
    - unfold unflushed. cbn [initial_state cache cache_file rows_processed].
      by rewrite map_difference_diag, map_size_empty. }
  split; [done|]. rewrite Heq. apply Nat.mod_upper_bound. lia.
Qed.

Lemma all_misses_cadence_witness :
  exists st tr,
    main_loop (fun _ => "") (fun _ _ _ => no_items) ["Title"]
      (initial_state None) [[VStr "Dune"]; [VStr "Emma"]; [VStr "Ulysses"]] [] =
      (Ok st, tr)
    /\ unflushed st = 2%nat.
Proof.
  destruct (main_loop (fun _ => "") (fun _ _ _ => no_items) ["Title"]
              (initial_state None)
              [[VStr "Dune"]; [VStr "Emma"]; [VStr "Ulysses"]] [])
    as [[st|e] tr] eqn:Hrun; [|by vm_compute in Hrun].
  exists st, tr. split; [reflexivity|].
  assert (NoDup (map (title_key (fun _ => "") ["Title"])
                   [[VStr "Dune"]; [VStr "Emma"]; [VStr "Ulysses"]])) as Hnd.
  { apply (bool_decide_unpack _). vm_compute. exact I. }
  destruct (all_misses_cadence _ _ _ None _ _ _ Hnd
              (fun row _ => eq_refl) Hrun) as [H _].
  exact H.
Defined.

(** X18.  When no request yields a volume (the source is unreachable,
    answers with an error status, or finds nothing), the loop never raises
    and every row gets the not-found entry. *)
Theorem unreachable_source_gives_defaults repr net (cols : list string)
    (rows : list (list value)) :
  (forall n url params, no_volume (net n url params) = true) ->
  exists st tr,
    main_loop repr net cols (initial_state None) rows [] = (Ok st, tr)
    /\ new_data st = replicate (length rows) not_found_entry.
Proof.
  intros Hnet.
  destruct (main_loop_offline repr net cols rows Hnet (initial_state None) [])
    as (st & tr & Hrun & Hnew).
  - intros k i. cbn [initial_state cache default from_option id].
    by rewrite lookup_empty.
  - by exists st, tr.
Qed.

Lemma unreachable_source_gives_defaults_witness :
  exists st tr,
    main_loop (fun _ => "") (fun _ _ _ => Timeout) ["Title"; "api_isbn"]
      (initial_state None)
      [[VStr "Dune"; VStr "9780441013593"]; [VStr "Emma"; VNaN]] [] =
      (Ok st, tr)
    /\ new_data st = [not_found_entry; not_found_entry].
Proof.
  apply (unreachable_source_gives_defaults (fun _ => "")
           (fun _ _ _ => Timeout) ["Title"; "api_isbn"]
           [[VStr "Dune"; VStr "9780441013593"]; [VStr "Emma"; VNaN]]).
  intros n url params. reflexivity.
Defined.

(** X19.  A run of [main] that ends normally on an input without the five
    added labels writes, as its last effect, a frame whose columns are the
    input's followed by the five labels and whose rows are the input's, in
    order, each extended by the cells of the cache entry of its title key;
    the cache file is left holding the whole cache. *)
Theorem main_output_rows repr net (df : DataFrame)
    (file : option (gmap string info)) (final : option (gmap string info))
    (tr : list event) :
  Forall (fun c => c ∉ columns df) google_columns ->
  main repr net (Some df) file [] = (Ok final, tr) ->
  exists cache_end out before,
    final = Some cache_end
    /\ tr = before ++ [EvToCsv OUTPUT_FILE out]
    /\ columns out = columns df ++ google_columns
    /\ Forall2 (fun row row' =>
                  exists i, cache_end !! title_key repr (columns df) row = Some i
                            /\ row' = row ++ google_cells i)
         (rows df) (rows out).
Proof.
  intros Hfresh. unfold main, bind.
  pose proof (main_loop_between repr net file (columns df) (rows df) [] _ []
                (initial_between repr file (columns df))) as [_ Hinv].
  destruct (main_loop repr net (columns df) (initial_state file) (rows df) [])
    as [[st|e] tr1]; [|done].
  cbn [fst snd app] in Hinv. destruct Hinv as (_ & _ & _ & _ & Hserved).
  unfold emit, ret. intros [= <- <-].
  apply Forall_cons in Hfresh as [H1 Hfresh].
  apply Forall_cons in Hfresh as [H2 Hfresh].
  apply Forall_cons in Hfresh as [H3 Hfresh].
  apply Forall_cons in Hfresh as [H4 Hfresh].
  apply Forall_cons in Hfresh as [H5 _].
  rewrite (assign_fresh "google_rating") by done.
  rewrite (assign_fresh "google_ratings_count")
    by (cbn [columns]; rewrite elem_of_app, list_elem_of_singleton;
        by intros [?|?]).
  rewrite (assign_fresh "google_page_count")
    by (cbn [columns]; rewrite !elem_of_app, !list_elem_of_singleton;
        by intros [[?|?]|?]).
  rewrite (assign_fresh "google_categories")
    by (cbn [columns]; rewrite !elem_of_app, !list_elem_of_singleton;
        by intros [[[?|?]|?]|?]).
  rewrite (assign_fresh "google_description")
    by (cbn [columns]; rewrite !elem_of_app, !list_elem_of_singleton;
        by intros [[[[?|?]|?]|?]|?]).
  cbn [columns rows]. rewrite zip_cells.
  eexists (cache st), _, tr1. split_and!; [reflexivity|reflexivity| |].
  - cbn [columns]. by rewrite <- !app_assoc.
  - cbn [rows]. clear -Hserved.
    induction Hserved as [|row i rs entries Hi _ IH]; [constructor|].
    cbn [zip_with]. constructor; [by exists i|done].
Qed.

Lemma main_output_rows_witness :
  exists cache_end out before,
    main (fun _ => "") title_only_net
      (Some (mkDF ["Title"; "Price"]
               [[VStr "Dune"; VInt 120000]; [VStr " Dune "; VInt 95000]]))
      None [] =
      (Ok (Some cache_end), before ++ [EvToCsv OUTPUT_FILE out])
    /\ columns out = ["Title"; "Price"] ++ google_columns
    /\ length (rows out) = 2%nat.
Proof.
  destruct (main (fun _ => "") title_only_net
              (Some (mkDF ["Title"; "Price"]
                       [[VStr "Dune"; VInt 120000]; [VStr " Dune "; VInt 95000]]))
              None [])
    as [[final|e] tr] eqn:Hrun; [|by vm_compute in Hrun].
  assert (Forall (fun c => c ∉ ["Title"; "Price"]) google_columns) as Hfresh.
  { apply (bool_decide_unpack _). vm_compute. exact I. }
  destruct (main_output_rows _ _
              (mkDF ["Title"; "Price"]
                 [[VStr "Dune"; VInt 120000]; [VStr " Dune "; VInt 95000]])
              _ _ _ Hfresh Hrun)
    as (cache_end & out & before & -> & -> & Hcols & Hrows).
  exists cache_end, out, before. split_and!.
  - reflexivity.
  - exact Hcols.
  - apply Forall2_length in Hrows. by rewrite <- Hrows.
Defined.

End GoogleMore.
